(** * CVAT to DeepLabCut conversion pipeline: a shallow embedding

    The development follows [cvat_to_deeplabcut_pipeline.py] (class
    [CVATToDeepLabCutPipeline]) and the range check of [cvat_dlc_gui.py].

    - Python dictionaries are finite maps ([gmap]), Python sets are [gset].
    - Python [int] is [Z].
    - Python [float] is an abstract type [coord]; the conversion
      [float(str)] and the box midpoint are operations on it.  Every
      statement is proved for an arbitrary choice of these operations, and
      the examples instantiate them with rationals.
    - A call that may raise returns an [outcome]. *)

From Stdlib Require Import ZArith QArith Lia Ascii.
From stdpp Require Import gmap strings list sorting pretty.

#[local] Set Warnings "-clear-no-such-hyp".

Local Open Scope Z_scope.

(** ** Exceptions *)

Inductive exn : Type :=
| ValueError
| KeyError
| EOFError
| OSError.

Inductive outcome (A : Type) : Type :=
| Ret (a : A)
| Raise (e : exn).
Arguments Ret {A} a.
Arguments Raise {A} e.

Definition obind {A B} (m : outcome A) (k : A → outcome B) : outcome B :=
  match m with
  | Ret a => k a
  | Raise e => Raise e
  end.

Notation "x ←! m ; k" := (obind m (λ x, k))
  (at level 20, m at level 100, k at level 200, only parsing, right associativity).

(** [o] when it holds a value, [d] otherwise. *)
Definition or_else {A} (o : option A) (d : option A) : option A :=
  match o with Some x => Some x | None => d end.

Fixpoint ofold {A B} (f : B → A → outcome B) (b : B) (l : list A) : outcome B :=
  match l with
  | [] => Ret b
  | a :: l' => b' ←! f b a; ofold f b' l'
  end.

(** ** Strings *)

Module Str.

(** [s.split(',')]: the fields between the separators, at least one. *)
Fixpoint split_go (sep : ascii) (cur : string) (s : string) : list string :=
  match s with
  | EmptyString => [String.rev cur]
  | String c s' =>
      if Ascii.eqb c sep then String.rev cur :: split_go sep EmptyString s'
      else split_go sep (String c cur) s'
  end.
Definition split (sep : ascii) (s : string) : list string :=
  split_go sep EmptyString s.

Fixpoint zeros (n : nat) : string :=
  match n with
  | O => EmptyString
  | S n' => String "0"%char (zeros n')
  end.

(** Left padding with the digit zero up to [width] characters. *)
Definition zfill (width : nat) (digits : string) : string :=
  zeros (width - String.length digits) +:+ digits.

(** The format specification [04d]: sign first, then zero padding, the
    whole field at least four characters wide. *)
Definition format_04d (n : Z) : string :=
  match n with
  | Zneg p => "-" +:+ zfill 3 (pretty (Npos p))
  | _ => zfill 4 (pretty (Z.to_N n))
  end.

(** Reading a digit string back, most significant digit first. *)
Definition digit_val (c : ascii) : N := (N_of_ascii c - 48)%N.
Fixpoint eval (acc : N) (s : string) : N :=
  match s with
  | EmptyString => acc
  | String c s' => eval (10 * acc + digit_val c)%N s'
  end.

(** The number a formatted field stands for. *)
Definition unformat (s : string) : Z :=
  match s with
  | String "-" s' => - Z.of_N (eval 0 s')
  | _ => Z.of_N (eval 0 s)
  end.

Definition quote : ascii := ascii_of_nat 34.
Definition cr : ascii := ascii_of_nat 13.
Definition lf : ascii := ascii_of_nat 10.
Definition nl : string := String lf EmptyString.

Fixpoint contains (c : ascii) (s : string) : bool :=
  match s with
  | EmptyString => false
  | String d s' => Ascii.eqb c d || contains c s'
  end.

Fixpoint join (sep : string) (l : list string) : string :=
  match l with
  | [] => EmptyString
  | [x] => x
  | x :: l' => x +:+ sep +:+ join sep l'
  end.

Definition cat (l : list string) : string := foldr String.append EmptyString l.

End Str.

(** The file name shared by frame extraction and table assembly:
    [f"frame_{n:04d}.png"]. *)
Definition frame_filename (n : Z) : string :=
  "frame_" +:+ Str.format_04d n +:+ ".png".

(** ** The annotation export, as the XML reader hands it over

    [root.findall('track')] and [track.findall(tag)] return the direct
    children with that tag in document order, so a track keeps its [box]
    and [points] children in one list.  The attributes [frame], [xtl],
    [ytl], [xbr] and [ybr] are carried converted; the [points] attribute is
    carried as text ([None] when absent), because the parser splits it. *)

Section Pipeline.

Context {coord image : Type}.
(** [float(s)], [None] when it raises [ValueError]. *)
Variable float_of_string : string → option coord.
(** [(a + b) / 2] on floats. *)
Variable midpoint : coord → coord → coord.
(** [str(x)] of a float, as [csv.writer] prints it. *)
Variable float_repr : coord → string.
(** [int(s)], [None] when it raises [ValueError]. *)
Variable int_of_string : string → option Z.
(** [s.strip()] *)
Variable strip : string → string.
(** [Path(p).stem] and [Path(p).name] *)
Variable path_stem : string → string.
Variable path_name : string → string.

Inductive shape : Type :=
| Box (frame : Z) (xtl ytl xbr ybr : coord)
| Points (frame : Z) (points : option string).

Record track : Type := Track {
  track_id : string;
  label : string;
  shapes : list shape
}.

Record job_meta : Type := JobMeta {
  size : option Z;
  start_frame : option Z;
  stop_frame : option Z
}.

Record document : Type := Document {
  meta_job : option job_meta;
  tracks : list track
}.

Inductive xml_source : Type :=
| Malformed
| Missing
| Parsed (doc : document).

(** ** Pipeline state: the fields of [CVATToDeepLabCutPipeline] *)

Record video_info_t : Type := VideoInfo {
  total_frames : option Z;
  vi_start_frame : option Z;
  vi_stop_frame : option Z;
  fps : option coord;
  width : option Z;
  height : option Z;
  video_file : option string
}.

Definition empty_video_info : video_info_t :=
  VideoInfo None None None None None None None.

Inductive selection : Type := Full | Range.

Record pipeline : Type := Pipeline {
  annotations : gmap Z (gmap string (coord * coord));
  video_info : video_info_t;
  bodyparts : list string;
  frame_selection : selection;
  frame_range : Z * Z
}.

(** [__init__] *)
Definition init : pipeline := Pipeline ∅ empty_video_info [] Full (0, -1).

(** ** [parse_cvat_xml] *)

(** [if frame_num not in self.annotations: self.annotations[frame_num] = {}] *)
Definition ensure_frame (frame_num : Z)
    (ann : gmap Z (gmap string (coord * coord))) :
    gmap Z (gmap string (coord * coord)) :=
  match ann !! frame_num with
  | Some _ => ann
  | None => <[frame_num := ∅]> ann
  end.

(** [self.annotations[frame_num][name] = xy] *)
Definition set_keypoint (frame_num : Z) (name : string) (xy : coord * coord)
    (ann : gmap Z (gmap string (coord * coord))) :
    gmap Z (gmap string (coord * coord)) :=
  <[frame_num := <[name := xy]> (default ∅ (ann !! frame_num))]> ann.

Definition is_box (sh : shape) : bool :=
  match sh with Box _ _ _ _ _ => true | Points _ _ => false end.
Definition is_points (sh : shape) : bool :=
  match sh with Box _ _ _ _ _ => false | Points _ _ => true end.

Definition center_name (lbl : string) : string := lbl +:+ "_center".

(** The accumulator of the parsing loops: the annotation index under
    construction and [bodyparts_set]. *)
Definition acc_t : Type := gmap Z (gmap string (coord * coord)) * gset string.

(** The coordinate pair a [points] attribute yields: nothing for an absent
    or empty attribute or a single component, the first two components
    otherwise; [float] may raise. *)
Definition points_coords (points : option string) : outcome (option (coord * coord)) :=
  match points with
  | None => Ret None
  | Some EmptyString => Ret None
  | Some s =>
      match Str.split ","%char s with
      | c0 :: c1 :: _ =>
          match float_of_string c0 with
          | None => Raise ValueError
          | Some x =>
              match float_of_string c1 with
              | None => Raise ValueError
              | Some y => Ret (Some (x, y))
              end
          end
      | _ => Ret None
      end
  end.

(** One iteration of a loop body; [track.findall] selects the shapes a
    loop sees. *)
Definition process_shape (lbl : string) (acc : acc_t) (sh : shape) : outcome acc_t :=
  match sh with
  | Box frame_num xtl ytl xbr ybr =>
      let ann := ensure_frame frame_num acc.1 in
      let center_x := midpoint xtl xbr in
      let center_y := midpoint ytl ybr in
      let bodypart_name := center_name lbl in
      Ret (set_keypoint frame_num bodypart_name (center_x, center_y) ann,
           acc.2 ∪ {[bodypart_name]})
  | Points frame_num points =>
      let ann := ensure_frame frame_num acc.1 in
      xy ←! points_coords points;
      match xy with
      | Some xy => Ret (set_keypoint frame_num lbl xy ann, acc.2 ∪ {[lbl]})
      | None => Ret (ann, acc.2)
      end
  end.

(** The body of [for track in root.findall('track')]: all boxes of the
    track, then all its points. *)
Definition process_track (acc : acc_t) (t : track) : outcome acc_t :=
  acc1 ←! ofold (process_shape (label t)) acc (filter is_box (shapes t));
  ofold (process_shape (label t)) acc1 (filter is_points (shapes t)).

Definition meta_video_info (j : job_meta) : video_info_t :=
  VideoInfo (Some (default 0 (size j)))
            (Some (default 0 (start_frame j)))
            (Some (default 0 (stop_frame j)))
            None None None None.

(** [sorted(list(bodyparts_set))] *)
Definition sorted_names (names : gset string) : list string :=
  merge_sort String.le (elements names).

Definition parse_cvat_xml (st : pipeline) (src : xml_source) : outcome (bool * pipeline) :=
  match src with
  | Malformed | Missing => Ret (false, st)
  | Parsed doc =>
      let vi := match meta_job doc with
                | Some j => meta_video_info j
                | None => video_info st
                end in
      acc ←! ofold process_track (∅, ∅) (tracks doc);
      Ret (true, Pipeline acc.1 vi (sorted_names acc.2)
                          (frame_selection st) (frame_range st))
  end.


(** ** [get_video_info]

    What [cv2.VideoCapture(video_file)] gives: whether it opened, the
    properties it reports, and the frames that successive [cap.read()]
    calls really decode.  The reported frame count is a container
    property; nothing ties it to the length of the decoded stream. *)

Record capture : Type := Capture {
  cap_opened : bool;
  cap_frame_count : Z;
  cap_fps : coord;
  cap_width : Z;
  cap_height : Z;
  cap_stream : list image
}.

(** [Raise] stands for a backend call that raises. *)
Definition video_source : Type := outcome capture.

Definition get_video_info (st : pipeline) (video_path : string)
    (src : video_source) : bool * pipeline :=
  match src with
  | Raise _ => (false, st)
  | Ret cap =>
      if negb (cap_opened cap) then (false, st)
      else
        let vi := video_info st in
        let vi' := VideoInfo (Some (cap_frame_count cap))
                             (vi_start_frame vi) (vi_stop_frame vi)
                             (Some (cap_fps cap))
                             (Some (cap_width cap)) (Some (cap_height cap))
                             (Some video_path) in
        (true, Pipeline (annotations st) vi' (bodyparts st)
                        (frame_selection st) (frame_range st))
  end.

(** ** [interactive_frame_selection]

    [inputs] are the lines that successive [input()] calls return; running
    out of lines is [EOFError]. *)

(** [0 <= start <= end <= max_frame] *)
Definition range_ok (max_frame start end_ : Z) : bool :=
  (0 <=? start) && (start <=? end_) && (end_ <=? max_frame).

(** The inner [while True]: ask for both bounds until they are valid. *)
Fixpoint range_loop (max_frame : Z) (inputs : list string) :
    outcome ((Z * Z) * list string) :=
  match inputs with
  | [] => Raise EOFError
  | l1 :: rest =>
      match int_of_string l1 with
      | None => range_loop max_frame rest
      | Some start =>
          match rest with
          | [] => Raise EOFError
          | l2 :: rest' =>
              match int_of_string l2 with
              | None => range_loop max_frame rest'
              | Some end_ =>
                  if range_ok max_frame start end_
                  then Ret ((start, end_), rest')
                  else range_loop max_frame rest'
              end
          end
      end
  end.

Definition set_selection (st : pipeline) (sel : selection) (r : Z * Z) : pipeline :=
  Pipeline (annotations st) (video_info st) (bodyparts st) sel r.

Fixpoint interactive_frame_selection (st : pipeline) (inputs : list string) :
    outcome (pipeline * list string) :=
  match inputs with
  | [] => Raise EOFError
  | choice :: rest =>
      if decide (strip choice = "1") then
        match total_frames (video_info st) with
        | None => Raise KeyError
        | Some total => Ret (set_selection st Full (0, total - 1), rest)
        end
      else if decide (strip choice = "2") then
        match total_frames (video_info st) with
        | None => Raise KeyError
        | Some total =>
            r ←! range_loop (total - 1) rest;
            Ret (set_selection st Range r.1, r.2)
        end
      else interactive_frame_selection st rest
  end.

(** ** The output project tree: relative path to content *)

Inductive file : Type :=
| FImage (img : image)
| FText (content : string)
| FVideoCopy (source : string)
| FSummary
| FSummaryPartial.

Definition frames_dir (video_name : string) : string :=
  "labeled-data/" +:+ video_name +:+ "/".

(** ** [extract_frames] *)

(** What a call [cv2.imwrite(path, frame)] does: it writes the file and
    returns [True]; it writes nothing and returns [False] (a path that
    cannot be written, a full disk); or it raises. *)
Inductive imwrite_result : Type :=
| ImwriteTrue
| ImwriteFalse
| ImwriteRaises.

(** The counters of the decoding loop: the number of frames that
    [cap.read()] delivered, and [extracted_count]. *)
Record extraction : Type := Extraction {
  decoded : nat;
  extracted_count : nat
}.

Definition in_window (start_frame end_frame frame_count : Z) : bool :=
  (start_frame <=? frame_count) && (frame_count <=? end_frame).

(** The [while True] loop; [stream] is what is left to decode,
    [frame_count] the running index and [fs] the output tree.  The value
    that [cv2.imwrite] returns is dropped: [extracted_count] goes up
    whether or not the file was written.  The loop is left with [false]
    when [cv2.imwrite] raises. *)
Fixpoint extract_loop (imwrite : string → image → imwrite_result)
    (frames_dir : string) (start_frame end_frame : Z) (stream : list image)
    (frame_count : Z) (ex : extraction) (fs : gmap string file) :
    bool * extraction * gmap string file :=
  match stream with
  | [] => (true, ex, fs)
  | frame :: rest =>
      let saved :=
        if in_window start_frame end_frame frame_count then
          let frame_path := frames_dir +:+ frame_filename frame_count in
          match imwrite frame_path frame with
          | ImwriteTrue =>
              Some (Extraction (S (decoded ex)) (S (extracted_count ex)),
                    <[frame_path := FImage frame]> fs)
          | ImwriteFalse =>
              Some (Extraction (S (decoded ex)) (S (extracted_count ex)), fs)
          | ImwriteRaises => None
          end
        else Some (Extraction (S (decoded ex)) (extracted_count ex), fs) in
      match saved with
      | None => (false, Extraction (S (decoded ex)) (extracted_count ex), fs)
      | Some (ex1, fs1) =>
          let frame_count' := frame_count + 1 in
          if frame_count' >? end_frame then (true, ex1, fs1)
          else extract_loop imwrite frames_dir start_frame end_frame rest
                            frame_count' ex1 fs1
      end
  end.

Definition extract_frames (st : pipeline) (video_file : string)
    (src : video_source) (imwrite : string → image → imwrite_result)
    (fs : gmap string file) : bool * extraction * gmap string file :=
  let video_name := path_stem video_file in
  match src with
  | Raise _ => (false, Extraction 0 0, fs)
  | Ret cap =>
      if negb (cap_opened cap) then (false, Extraction 0 0, fs)
      else
        extract_loop imwrite (frames_dir video_name)
                     (frame_range st).1 (frame_range st).2
                     (cap_stream cap) 0 (Extraction 0 0) fs
  end.

(** ** [create_deeplabcut_csv] *)

Inductive cell : Type :=
| CStr (s : string)
| CFloat (x : coord)
| CNan.

(** [sorted(self.annotations.keys())] restricted to the frame range. *)
Definition valid_frames (st : pipeline) : list Z :=
  filter (λ frame_num, in_window (frame_range st).1 (frame_range st).2 frame_num)
         (merge_sort Z.le (elements (dom (annotations st)))).

Definition scorer_row (st : pipeline) (scorer : string) : list cell :=
  [CStr "scorer"; CStr ""; CStr ""]
    ++ replicate (length (bodyparts st) * 2) (CStr scorer).

Definition bodyparts_row (st : pipeline) : list cell :=
  [CStr "bodyparts"; CStr ""; CStr ""]
    ++ concat (map (λ bodypart, [CStr bodypart; CStr bodypart]) (bodyparts st)).

Definition coords_row (st : pipeline) : list cell :=
  [CStr "coords"; CStr ""; CStr ""]
    ++ concat (replicate (length (bodyparts st)) [CStr "x"; CStr "y"]).

Definition image_name (frame_num : Z) : string := frame_filename frame_num.

Definition keypoint_cells (frame_annotations : gmap string (coord * coord))
    (bodypart : string) : list cell :=
  match frame_annotations !! bodypart with
  | Some (x, y) => [CFloat x; CFloat y]
  | None => [CNan; CNan]
  end.

Definition data_row (st : pipeline) (video_name : string) (frame_num : Z) : list cell :=
  let frame_annotations := default ∅ (annotations st !! frame_num) in
  [CStr "labeled-data"; CStr video_name; CStr (image_name frame_num)]
    ++ concat (map (keypoint_cells frame_annotations) (bodyparts st)).

Definition data_rows (st : pipeline) (video_name : string) : list (list cell) :=
  map (data_row st video_name) (valid_frames st).

(** The image reference of a data row: its third cell. *)
Definition row_image (row : list cell) : option string :=
  match row with
  | _ :: _ :: CStr img :: _ => Some img
  | _ => None
  end.

(** [csv.writer] with its defaults: fields joined by commas, a field with
    a comma, a quote or a line break is quoted, rows end in CR LF. *)
Definition needs_quote (s : string) : bool :=
  Str.contains ","%char s || Str.contains Str.quote s
    || Str.contains Str.cr s || Str.contains Str.lf s.

Fixpoint double_quotes (s : string) : string :=
  match s with
  | EmptyString => EmptyString
  | String c s' =>
      if Ascii.eqb c Str.quote
      then String Str.quote (String Str.quote (double_quotes s'))
      else String c (double_quotes s')
  end.

Definition csv_field (c : cell) : string :=
  match c with
  | CStr s =>
      if needs_quote s
      then String Str.quote (double_quotes s +:+ String Str.quote EmptyString)
      else s
  | CFloat x => float_repr x
  | CNan => "nan"
  end.

Definition csv_line (row : list cell) : string :=
  Str.join "," (map csv_field row) +:+ String Str.cr Str.nl.

Definition csv_text (rows : list (list cell)) : string :=
  Str.cat (map csv_line rows).

Definition csv_path (video_name scorer : string) : string :=
  frames_dir video_name +:+ "CollectedData_" +:+ scorer +:+ ".csv".

(** [writable] tells whether opening and writing the file goes through. *)
Definition create_deeplabcut_csv (st : pipeline) (scorer : string)
    (writable : bool) (fs : gmap string file) : outcome (bool * gmap string file) :=
  match video_file (video_info st) with
  | None => Raise KeyError
  | Some vf =>
      let video_name := path_stem vf in
      match valid_frames st with
      | [] => Ret (false, fs)
      | _ =>
          if writable then
            Ret (true,
                 <[csv_path video_name scorer :=
                     FText (csv_text (scorer_row st scorer :: bodyparts_row st
                                        :: coords_row st :: data_rows st video_name))]> fs)
          else Ret (false, fs)
      end
  end.


(** ** [create_deeplabcut_config] *)

Definition ln (s : string) : string := s +:+ Str.nl.
Definition ln2 (s : string) : string := s +:+ Str.nl +:+ Str.nl.
Definition ln3 (s : string) : string := s +:+ Str.nl +:+ Str.nl +:+ Str.nl.

Definition skeleton_lines : list string :=
  [ ln "  # Queen bee skeleton";
    ln "  - [Q_Head, Q_Neck]";
    ln "  - [Q_Neck, Q_Tail]";
    ln "  - [Q_Antenna_L1, Q_Antenna_L2]";
    ln "  - [Q_Antenna_L2, Q_Antenna_L3]";
    ln "  - [Q_Antenna_L3, Q_Head]";
    ln "  - [Q_Antenna_R1, Q_Antenna_R2]";
    ln "  - [Q_Antenna_R2, Q_Antenna_R3]";
    ln "  - [Q_Antenna_R3, Q_Head]";
    Str.nl;
    ln "  # Other bee skeleton (template individual)";
    ln "  - [O_Head, O_Neck]";
    ln "  - [O_Neck, O_Tail]";
    ln "  - [O_Antenna_L1, O_Antenna_L2]";
    ln "  - [O_Antenna_L2, O_Antenna_L3]";
    ln "  - [O_Antenna_L3, O_Head]";
    ln "  - [O_Antenna_R1, O_Antenna_R2]";
    ln "  - [O_Antenna_R2, O_Antenna_R3]";
    ln "  - [O_Antenna_R3, O_Head]" ].

(** The text written to [config.yaml]; [current_date] is
    [datetime.now().strftime("%b%d")] and [project_path] is
    [str(Path(output_dir).absolute())]. *)
Definition config_text (st : pipeline) (project_name scorer : string)
    (current_date project_path video_filename : string) : string :=
  Str.cat
    ([ ln "# Project definitions (do not edit)";
       ln ("Task: " +:+ project_name);
       ln ("scorer: " +:+ scorer);
       ln ("date: " +:+ current_date);
       ln "multianimalproject:";
       ln3 "identity:";
       ln "# Project path (change when moving around)";
       ln3 ("project_path: " +:+ project_path);
       ln "# Default DeepLabCut engine to use for shuffle creation (either pytorch or tensorflow)";
       ln3 "engine: pytorch";
       ln "# Annotation data set configuration (and individual video cropping parameters)";
       ln "video_sets:";
       ln ("  " +:+ video_filename +:+ ":");
       ln2 "    crop: false";
       ln "# Other settings";
       ln "bodyparts:" ]
     ++ map (λ bodypart, ln ("- " +:+ bodypart)) (bodyparts st)
     ++ [ ln3 "";
          ln "start: 0";
          ln "stop: 1";
          ln3 "numframes2pick: 20";
          ln "# Plotting configuration";
          ln "skeleton:" ]
     ++ skeleton_lines
     ++ [ ln "skeleton_color: blue";
          ln "pcutoff: 0.4";
          ln "dotsize: 12";
          ln "alphavalue: 0.7";
          ln3 "colormap: plasma";
          ln "# Training,Evaluation and Analysis configuration";
          ln "TrainingFraction: [0.95]";
          ln "iteration: 0";
          ln "default_net_type: resnet_50";
          ln "default_augmenter: imgaug";
          ln "snapshotindex: -1";
          ln "detector_snapshotindex: -1";
          ln "batch_size: 8";
          ln3 "detector_batch_size: 1";
          ln "# Cropping Parameters (for analysis and outlier frame detection)";
          ln "cropping:";
          ln "#if cropping is true for analysis, then set the values here:";
          ln "x1:";
          ln "x2:";
          ln "y1:";
          ln3 "y2:";
          ln "# Refinement configuration (parameters from annotation dataset configuration also relevant in this stage)";
          ln "corner2move2:";
          ln3 "move2corner:";
          ln "# Conversion tables to fine-tune SuperAnimal weights";
          ln "SuperAnimalConversionTables:";
          ln ("project_name: " +:+ project_name) ]).

Definition config_path : string := "config.yaml".

Definition create_deeplabcut_config (st : pipeline) (project_name scorer : string)
    (current_date project_path : string) (writable : bool)
    (fs : gmap string file) : outcome (bool * gmap string file) :=
  match video_file (video_info st) with
  | None => Raise KeyError
  | Some vf =>
      if writable then
        Ret (true,
             <[config_path :=
                 FText (config_text st project_name scorer current_date
                                    project_path (path_name vf))]> fs)
      else Ret (false, fs)
  end.

(** ** [copy_video_to_project] *)

Definition copy_video_to_project (video_path : string) (copy_ok : bool)
    (fs : gmap string file) : bool * gmap string file :=
  if copy_ok
  then (true, <["videos/" +:+ path_name video_path := FVideoCopy video_path]> fs)
  else (false, fs).

(** ** [generate_h5_file]

    How the external converter behaves on this run. *)

Inductive import_result : Type :=
| ImportOk
| ImportMissing      (* [ImportError] *)
| ImportFails.       (* any other exception *)

Inductive proc_result : Type :=
| Exit (returncode : Z)
| ProcRaises.        (* [subprocess.run] raises, a timeout included *)

Record converter : Type := Converter {
  import_deeplabcut : import_result;
  (** [convertcsv2h5] under the patched [input] returns normally *)
  patched_call_ok : bool;
  (** [h5_converter_path.exists()] *)
  script_exists : bool;
  script_run : proc_result;
  inline_run : proc_result;
  (** [convertcsv2h5] with the environment variables set returns normally *)
  batch_call_ok : bool
}.

Inductive h5_message : Type :=
| H5Generated            (* Successfully generated h5 file *)
| H5ConverterOutput      (* warning: H5 converter output *)
| H5PromptWarning        (* warning: encountered interactive prompt *)
| H5ImportWarning        (* warning: cannot import deeplabcut *)
| H5Failed.              (* h5 file generation failed; run manually *)

(** Method 3 *)
Definition h5_batch (c : converter) (log : list h5_message) : bool * list h5_message :=
  if batch_call_ok c then (true, log ++ [H5Generated])
  else (true, log ++ [H5PromptWarning]).

(** The fallback of method 2 *)
Definition h5_inline (c : converter) (log : list h5_message) : bool * list h5_message :=
  match inline_run c with
  | Exit 0 => (true, log ++ [H5Generated])
  | Exit _ => h5_batch c log
  | ProcRaises => h5_batch c log
  end.

(** Method 2 *)
Definition h5_subprocess (c : converter) : bool * list h5_message :=
  if script_exists c then
    match script_run c with
    | Exit 0 => (true, [H5Generated])
    | Exit _ => h5_inline c [H5ConverterOutput]
    | ProcRaises => h5_batch c []
    end
  else h5_inline c [].

Definition generate_h5_file (c : converter) : bool * list h5_message :=
  match import_deeplabcut c with
  | ImportMissing => (true, [H5ImportWarning])
  | ImportFails => (true, [H5Failed])
  | ImportOk =>
      if patched_call_ok c then (true, [H5Generated])
      else h5_subprocess c
  end.

(** The program that the fallback of method 2 hands to the child
    interpreter: [import deeplabcut] outside any handler, then the
    conversion inside [try] / [except] / [finally].  Its return code and
    what it prints: an exception of the conversion is caught and printed,
    and the child still ends with return code 0. *)
Inductive child_message : Type :=
| ChildCompleted     (* H5 conversion completed successfully *)
| ChildFailed.       (* H5 conversion failed *)

Definition inline_child (import_ok conversion_ok : bool) : Z * list child_message :=
  if negb import_ok then (1, [])
  else if conversion_ok then (0, [ChildCompleted])
  else (0, [ChildFailed]).

(** ** [create_dataset_summary]

    The text of the summary plays no part below; the file is recorded as
    complete or cut short. *)
Definition summary_path : string := "dataset_summary.txt".

Definition create_dataset_summary (st : pipeline) (writable : bool)
    (fs : gmap string file) : outcome unit * gmap string file :=
  if negb writable then (Raise OSError, fs)
  else
    match fps (video_info st) with
    | None => (Raise ValueError, <[summary_path := FSummaryPartial]> fs)
    | Some _ =>
        match video_file (video_info st) with
        | None => (Raise KeyError, <[summary_path := FSummaryPartial]> fs)
        | Some _ => (Ret tt, <[summary_path := FSummary]> fs)
        end
    end.


(** ** [run_pipeline]

    Everything outside the program that a run depends on. *)

Record world : Type := World {
  w_xml : xml_source;
  w_video : video_source;
  (** what [cv2.imwrite] does with a path and a frame *)
  w_imwrite : string → image → imwrite_result;
  (** lines typed at the prompts *)
  w_inputs : list string;
  (** [datetime.now().strftime("%b%d")] *)
  w_today : string;
  (** [str(Path(output_dir).absolute())] *)
  w_project_path : string;
  w_csv_writable : bool;
  w_config_writable : bool;
  w_copy_ok : bool;
  w_converter : converter;
  w_summary_writable : bool
}.

Record run_result : Type := RunResult {
  status : outcome bool;
  final_state : pipeline;
  files : gmap string file
}.

Definition run_pipeline (w : world) (st : pipeline)
    (video_path project_name scorer : string)
    (fs : gmap string file) : run_result :=
  (* Step 1 *)
  match parse_cvat_xml st (w_xml w) with
  | Raise e => RunResult (Raise e) st fs
  | Ret (false, st1) => RunResult (Ret false) st1 fs
  | Ret (true, st1) =>
  (* Step 2 *)
  match get_video_info st1 video_path (w_video w) with
  | (false, st2) => RunResult (Ret false) st2 fs
  | (true, st2) =>
  (* Step 3 *)
  match interactive_frame_selection st2 (w_inputs w) with
  | Raise e => RunResult (Raise e) st2 fs
  | Ret (st3, _) =>
  (* Step 4 *)
  match extract_frames st3 video_path (w_video w) (w_imwrite w) fs with
  | (false, _, fs1) => RunResult (Ret false) st3 fs1
  | (true, _, fs1) =>
  (* Step 5 *)
  match create_deeplabcut_csv st3 scorer (w_csv_writable w) fs1 with
  | Raise e => RunResult (Raise e) st3 fs1
  | Ret (false, fs2) => RunResult (Ret false) st3 fs2
  | Ret (true, fs2) =>
  (* Step 6 *)
  match create_deeplabcut_config st3 project_name scorer (w_today w)
                                  (w_project_path w) (w_config_writable w) fs2 with
  | Raise e => RunResult (Raise e) st3 fs2
  | Ret (false, fs3) => RunResult (Ret false) st3 fs3
  | Ret (true, fs3) =>
  (* Step 7 *)
  match copy_video_to_project video_path (w_copy_ok w) fs3 with
  | (false, fs4) => RunResult (Ret false) st3 fs4
  | (true, fs4) =>
  (* Step 8: the value returned is dropped *)
  let _ := generate_h5_file (w_converter w) in
  (* Step 9 *)
  match create_dataset_summary st3 (w_summary_writable w) fs4 with
  | (Raise e, fs5) => RunResult (Raise e) st3 fs5
  | (Ret _, fs5) => RunResult (Ret true) st3 fs5
  end end end end end end end end.

(** ** The GUI front end ([cvat_dlc_gui.py]) *)

Record gui_inputs : Type := GuiInputs {
  gi_xml_file : string;
  gi_video_file : string;
  gi_output_dir : string;
  gi_xml_exists : bool;
  gi_video_exists : bool;
  gi_selection : selection;
  gi_start : Z;
  gi_end : Z;
  gi_project_name : string;
  gi_scorer : string
}.

Definition is_empty (s : string) : bool :=
  match s with EmptyString => true | _ => false end.

Definition validate_inputs (gi : gui_inputs) : bool :=
  if is_empty (gi_xml_file gi) then false
  else if is_empty (gi_video_file gi) then false
  else if is_empty (gi_output_dir gi) then false
  else if negb (gi_xml_exists gi) then false
  else if negb (gi_video_exists gi) then false
  else
    match gi_selection gi with
    | Range =>
        if (gi_start gi <? 0) || (gi_end gi <? gi_start gi) then false else true
    | Full => true
    end.

(** The frame window [run_conversion] installs after probing. *)
Definition gui_set_range (gi : gui_inputs) (st : pipeline) : outcome pipeline :=
  match gi_selection gi with
  | Range => Ret (set_selection st Range (gi_start gi, gi_end gi))
  | Full =>
      match total_frames (video_info st) with
      | None => Raise KeyError
      | Some total => Ret (set_selection st Full (0, total - 1))
      end
  end.

(** [run_conversion]: the same stages, called one by one; whatever is
    raised is caught and reported as a failed conversion.  The result is
    the argument of [conversion_completed]. *)
Definition run_conversion (w : world) (gi : gui_inputs)
    (fs : gmap string file) : run_result :=
  let failed st fs := RunResult (Ret false) st fs in
  match parse_cvat_xml init (w_xml w) with
  | Raise _ => failed init fs
  | Ret (false, st1) => failed st1 fs
  | Ret (true, st1) =>
  match get_video_info st1 (gi_video_file gi) (w_video w) with
  | (false, st2) => failed st2 fs
  | (true, st2) =>
  match gui_set_range gi st2 with
  | Raise _ => failed st2 fs
  | Ret st3 =>
  match extract_frames st3 (gi_video_file gi) (w_video w) (w_imwrite w) fs with
  | (false, _, fs1) => failed st3 fs1
  | (true, _, fs1) =>
  match create_deeplabcut_csv st3 (gi_scorer gi) (w_csv_writable w) fs1 with
  | Raise _ => failed st3 fs1
  | Ret (false, fs2) => failed st3 fs2
  | Ret (true, fs2) =>
  match create_deeplabcut_config st3 (gi_project_name gi) (gi_scorer gi) (w_today w)
                                  (w_project_path w) (w_config_writable w) fs2 with
  | Raise _ => failed st3 fs2
  | Ret (false, fs3) => failed st3 fs3
  | Ret (true, fs3) =>
  match copy_video_to_project (gi_video_file gi) (w_copy_ok w) fs3 with
  | (false, fs4) => failed st3 fs4
  | (true, fs4) =>
  let _ := generate_h5_file (w_converter w) in
  match create_dataset_summary st3 (w_summary_writable w) fs4 with
  | (Raise _, fs5) => failed st3 fs5
  | (Ret _, fs5) => RunResult (Ret true) st3 fs5
  end end end end end end end end.

(** [start_conversion]: nothing runs unless the inputs validate. *)
Definition start_conversion (w : world) (gi : gui_inputs)
    (fs : gmap string file) : option run_result :=
  if validate_inputs gi then Some (run_conversion w gi fs) else None.

(** ** The export read in document order

    What each shape contributes, independently of the order in which the
    parser visits the shapes. *)

Definition shape_frame (sh : shape) : Z :=
  match sh with
  | Box frame_num _ _ _ _ => frame_num
  | Points frame_num _ => frame_num
  end.

(** The keypoint a shape yields: frame, name and position. *)
Definition contribution (lbl : string) (sh : shape) :
    option (Z * string * (coord * coord)) :=
  match sh with
  | Box frame_num xtl ytl xbr ybr =>
      Some (frame_num, center_name lbl, (midpoint xtl xbr, midpoint ytl ybr))
  | Points frame_num points =>
      match points_coords points with
      | Ret (Some xy) => Some (frame_num, lbl, xy)
      | _ => None
      end
  end.

Definition track_contributions (t : track) : list (Z * string * (coord * coord)) :=
  omap (contribution (label t)) (shapes t).

(** All keypoints of the export, in document order. *)
Definition contributions (doc : document) : list (Z * string * (coord * coord)) :=
  concat (map track_contributions (tracks doc)).

(** The frames for which the export holds a box or a points element. *)
Definition shape_frames (doc : document) : list Z :=
  concat (map (λ t, shape_frame <$> shapes t) (tracks doc)).

(** The position given by the last entry for frame [f] and name [n]. *)
Fixpoint latest (f : Z) (n : string) (cs : list (Z * string * (coord * coord))) :
    option (coord * coord) :=
  match cs with
  | [] => None
  | c :: cs' =>
      match latest f n cs' with
      | Some xy => Some xy
      | None => if decide (c.1 = (f, n)) then Some c.2 else None
      end
  end.

(** [self.annotations[f][n]], when both keys are there. *)
Definition keypoint (ann : gmap Z (gmap string (coord * coord)))
    (f : Z) (n : string) : option (coord * coord) :=
  ann !! f ≫= (λ frame_annotations, frame_annotations !! n).

(** The names of the specification: [<label>_center] for every box and
    the label for every points element. *)
Definition box_derived_names (doc : document) : list string :=
  t ← tracks doc; sh ← shapes t;
  if is_box sh then [center_name (label t)] else [].

Definition point_derived_names (doc : document) : list string :=
  t ← tracks doc; sh ← shapes t;
  if is_points sh then [label t] else [].

(** A conversion of the shape raises. *)
Definition shape_raises (sh : shape) : bool :=
  match sh with
  | Box _ _ _ _ _ => false
  | Points _ points =>
      match points_coords points with Raise _ => true | Ret _ => false end
  end.

(** Every number of the export can be read. *)
Definition readable (doc : document) : bool :=
  forallb (λ t, forallb (λ sh, negb (shape_raises sh)) (shapes t)) (tracks doc).

(** A valid export: every points element carries a coordinate pair. *)
Definition shape_valid (sh : shape) : bool :=
  match sh with
  | Box _ _ _ _ _ => true
  | Points _ points =>
      match points_coords points with Ret (Some _) => true | _ => false end
  end.

Definition valid_export (doc : document) : bool :=
  forallb (λ t, forallb shape_valid (shapes t)) (tracks doc).

(** ** Varying one condition of a run *)

Definition with_converter (c : converter) (w : world) : world :=
  World (w_xml w) (w_video w) (w_imwrite w) (w_inputs w) (w_today w) (w_project_path w)
        (w_csv_writable w) (w_config_writable w) (w_copy_ok w) c
        (w_summary_writable w).

Definition with_imwrite (imwrite : string → image → imwrite_result) (w : world) :
    world :=
  World (w_xml w) (w_video w) imwrite (w_inputs w) (w_today w) (w_project_path w)
        (w_csv_writable w) (w_config_writable w) (w_copy_ok w) (w_converter w)
        (w_summary_writable w).

Definition with_today (today : string) (w : world) : world :=
  World (w_xml w) (w_video w) (w_imwrite w) (w_inputs w) today (w_project_path w)
        (w_csv_writable w) (w_config_writable w) (w_copy_ok w) (w_converter w)
        (w_summary_writable w).

Definition with_summary_writable (b : bool) (w : world) : world :=
  World (w_xml w) (w_video w) (w_imwrite w) (w_inputs w) (w_today w) (w_project_path w)
        (w_csv_writable w) (w_config_writable w) (w_copy_ok w) (w_converter w) b.

End Pipeline.

Arguments shape coord : clear implicits.
Arguments track coord : clear implicits.
Arguments document coord : clear implicits.
Arguments xml_source coord : clear implicits.
Arguments video_info_t coord : clear implicits.
Arguments pipeline coord : clear implicits.
Arguments acc_t coord : clear implicits.
Arguments capture coord image : clear implicits.
Arguments video_source coord image : clear implicits.
Arguments file image : clear implicits.
Arguments cell coord : clear implicits.
Arguments world coord image : clear implicits.
Arguments run_result coord image : clear implicits.
Arguments Box {coord} frame xtl ytl xbr ybr.
Arguments Points {coord} frame points.
Arguments Track {coord} track_id label shapes.
Arguments Document {coord} meta_job tracks.
Arguments Parsed {coord} doc.
Arguments Malformed {coord}.
Arguments Missing {coord}.
Arguments Capture {coord image} _ _ _ _ _ _.
Arguments World {coord image} _ _ _ _ _ _ _ _ _ _ _.

(** ** A concrete reading of the library functions, for the examples

    Floats are exact rationals with decimal literals, paths are POSIX. *)

Module Sample.

Definition is_digit (c : ascii) : bool :=
  (48 <=? N_of_ascii c)%N && (N_of_ascii c <=? 57)%N.

Fixpoint all_digits (s : string) : bool :=
  match s with
  | EmptyString => true
  | String c s' => is_digit c && all_digits s'
  end.

Definition read_digits (s : string) : option N :=
  match s with
  | EmptyString => None
  | _ => if all_digits s then Some (Str.eval 0 s) else None
  end.

Definition read_signed {A} (read : string → option A) (neg : A → A)
    (s : string) : option A :=
  match s with
  | String "-"%char s' => neg <$> read s'
  | String "+"%char s' => read s'
  | _ => read s
  end.

Definition is_space (c : ascii) : bool :=
  Ascii.eqb c " "%char || ((9 <=? N_of_ascii c)%N && (N_of_ascii c <=? 13)%N).

Fixpoint lstrip (s : string) : string :=
  match s with
  | String c s' => if is_space c then lstrip s' else s
  | EmptyString => EmptyString
  end.

Definition strip (s : string) : string :=
  String.rev (lstrip (String.rev (lstrip s))).

Definition int_of_string (s : string) : option Z :=
  read_signed (λ d, Z.of_N <$> read_digits d) Z.opp (strip s).

(** Digits, then optionally a point and more digits. *)
Definition read_decimal (s : string) : option Q :=
  match Str.split "."%char s with
  | [i] => (λ n, inject_Z (Z.of_N n)) <$> read_digits i
  | [i; f] =>
      n ← read_digits i;
      m ← read_digits f;
      Some (Qred (inject_Z (Z.of_N n)
                  + Qmake (Z.of_N m) (Pos.pow 10 (Pos.of_nat (String.length f)))))
  | _ => None
  end.

Definition float_of_string (s : string) : option Q :=
  read_signed read_decimal Qopp (strip s).

Definition midpoint (a b : Q) : Q := Qred ((a + b) / 2).

(** The decimal digits of a fraction [num / den] below one, as far as
    [fuel] goes. *)
Fixpoint frac_digits (fuel : nat) (num den : Z) : string :=
  match fuel with
  | O => EmptyString
  | S fuel' =>
      if num =? 0 then EmptyString
      else pretty (Z.to_N (10 * num / den)) +:+ frac_digits fuel' (10 * num mod den) den
  end.

Definition float_repr (q : Q) : string :=
  let num := Z.abs (Qnum q) in
  let den := Zpos (Qden q) in
  let whole := num / den in
  let rest := num mod den in
  (if Qnum q <? 0 then "-" else "")
    +:+ pretty (Z.to_N whole) +:+ "."
    +:+ (if rest =? 0 then "0" else frac_digits 17 rest den).

(** The part after the last slash. *)
Definition path_name (p : string) : string :=
  default p (last (Str.split "/"%char p)).

(** The name without its last suffix. *)
Definition path_stem (p : string) : string :=
  let name := path_name p in
  match reverse (Str.split "."%char name) with
  | _ :: (_ :: _) as front =>
      let stem := Str.join "." (reverse front) in
      if is_empty stem then name else stem
  | _ => name
  end.

Definition parse := parse_cvat_xml float_of_string midpoint.
Definition select := @interactive_frame_selection Q int_of_string strip.
Definition csv := @create_deeplabcut_csv Q string float_repr path_stem.
Definition run := @run_pipeline Q string float_of_string midpoint float_repr
                                int_of_string strip path_stem path_name.
Definition gui_run := @run_conversion Q string float_of_string midpoint float_repr
                                      path_stem path_name.
Definition gui_start := @start_conversion Q string float_of_string midpoint float_repr
                                          path_stem path_name.

(** One track labelled [Bee] with a point at frame 5. *)
Definition bee_doc : document Q :=
  Document None [Track "0" "Bee" [Points 5 (Some "12.0,8.0")]].

(** The same track with one more points element, at frame 3, whose
    [points] attribute is empty. *)
Definition gap_doc : document Q :=
  Document None [Track "0" "Bee" [Points 3 (Some ""); Points 5 (Some "12.0,8.0")]].

(** The same track with its point at frame 2. *)
Definition early_doc : document Q :=
  Document None [Track "0" "Bee" [Points 2 (Some "1.0,1.0")]].

(** A box track and a point track meeting at frame 7. *)
Definition hive_doc : document Q :=
  Document None
    [Track "0" "Queen" [Box 7 (10 # 1) (20 # 1) (30 # 1) (40 # 1)];
     Track "1" "Worker" [Points 7 (Some "5.5,6.5")]].

(** Two tracks with the same label, both with a point at frame 5. *)
Definition clash_doc : document Q :=
  Document None
    [Track "0" "Bee" [Points 5 (Some "1.0,1.0")];
     Track "1" "Bee" [Points 5 (Some "2.0,2.0")]].

(** A video whose container announces [count] frames and that decodes
    [n] of them. *)
Definition film (count : Z) (n : nat) : capture Q string :=
  Capture true count (30 # 1) 640 480
          (map (λ i, "image " +:+ pretty i) (seq 0 n)).

Definition video (count : Z) (n : nat) : video_source Q string :=
  Ret (film count n).

Definition healthy_converter : converter :=
  Converter ImportOk true true (Exit 0) (Exit 0) true.

Definition bee_world (count : Z) (n : nat) (inputs : list string) : world Q string :=
  World (Parsed bee_doc) (video count n) (λ _ _, ImwriteTrue) inputs "Sep16" "/data/out"
        true true true healthy_converter true.

Definition early_world (count : Z) (n : nat) (inputs : list string) : world Q string :=
  World (Parsed early_doc) (video count n) (λ _ _, ImwriteTrue) inputs "Sep16" "/data/out"
        true true true healthy_converter true.

Definition gap_world (count : Z) (n : nat) (inputs : list string) : world Q string :=
  World (Parsed gap_doc) (video count n) (λ _ _, ImwriteTrue) inputs "Sep16" "/data/out"
        true true true healthy_converter true.

(** An output tree in which one path cannot be written: [cv2.imwrite]
    returns [False] there and [True] everywhere else. *)
Definition imwrite_except (unwritable : string) (path : string) (frame : string) :
    imwrite_result :=
  if decide (path = unwritable) then ImwriteFalse else ImwriteTrue.

(** [deeplabcut] is installed, [convertcsv2h5] raises whenever it is
    called, and [h5_converter.py] is not next to the pipeline script; the
    inline child catches the exception of its conversion. *)
Definition failing_converter : converter :=
  Converter ImportOk false false (Exit 1) (Exit (inline_child true false).1) false.

(** The same with [h5_converter.py] in place: it ends with status 1. *)
Definition failing_converter_with_script : converter :=
  Converter ImportOk false true (Exit 1) (Exit (inline_child true false).1) false.

(** The GUI form filled in with a frame range. *)
Definition form (start end_ : Z) : gui_inputs :=
  GuiInputs "/data/annotations.xml" "/videos/bee.mp4" "/data/out" true true
            Range start end_ "BeePoseEstimation" "manual".

(** The state after parsing [hive_doc], with the window [0, 9]. *)
Definition hive_state : pipeline Q :=
  match parse init (Parsed hive_doc) with
  | Ret (_, st) => set_selection st Full (0, 9)
  | Raise _ => init
  end.

(** The export of [bee_doc] with a [meta] block announcing 100 frames. *)
Definition meta_doc : document Q :=
  Document (Some (JobMeta (Some 100) (Some 0) (Some 99)))
           [Track "0" "Bee" [Points 5 (Some "12.0,8.0")]].

Definition meta_state : pipeline Q :=
  match parse init (Parsed meta_doc) with
  | Ret (_, st) => st
  | Raise _ => init
  end.

(** The state after probing a video of three frames. *)
Definition probed3 : pipeline Q :=
  (get_video_info init "/videos/bee.mp4" (video 3 3)).2.

(** The GUI form left on "full". *)
Definition form_full : gui_inputs :=
  GuiInputs "/data/annotations.xml" "/videos/bee.mp4" "/data/out" true true
            Full 0 0 "BeePoseEstimation" "manual".

End Sample.

(** ** The rest of the front ends *)

Section Frontends.

Context {coord image : Type}.
Variable float_of_string : string → option coord.
Variable midpoint : coord → coord → coord.
Variable float_repr : coord → string.
Variable int_of_string : string → option Z.
Variable strip : string → string.
Variable path_stem : string → string.
Variable path_name : string → string.

(** *** The figures of [create_dataset_summary] *)

(** [total_selected_frames = end_frame - start_frame + 1] *)
Definition total_selected_frames (st : pipeline coord) : Z :=
  (frame_range st).2 - (frame_range st).1 + 1.

(** [len([f for f in self.annotations.keys() if start_frame <= f <= end_frame])];
    the keys are taken in the order of the map, which the length does not
    depend on. *)
Definition valid_annotation_frames (st : pipeline coord) : nat :=
  length (filter (λ f, in_window (frame_range st).1 (frame_range st).2 f)
                 (map_to_list (annotations st)).*1).

(** *** [main] of the pipeline script

    The arguments as [argparse] hands them over; [--project] and
    [--scorer] are optional. *)
Record cli_args : Type := CliArgs {
  a_xml_file : string;
  a_video_file : string;
  a_output_dir : string;
  a_project : option string;
  a_scorer : option string
}.

(** How the process ends: [sys.exit(code)], falling off the end of [main]
    (status 0), or an exception nobody catches. *)
Inductive exit : Type :=
| Exited (code : Z)
| Uncaught (e : exn).

(** The exit status the operating system sees: the interpreter prints the
    traceback of an uncaught exception and ends with status 1. *)
Definition exit_status (x : exit) : Z :=
  match x with
  | Exited code => code
  | Uncaught _ => 1
  end.

(** [xml_exists] and [video_exists] are [os.path.exists] of the two input
    paths. *)
Definition main (args : cli_args) (xml_exists video_exists : bool)
    (w : world coord image) (fs : gmap string (file image)) :
    exit * gmap string (file image) :=
  if negb xml_exists then (Exited 0, fs)
  else if negb video_exists then (Exited 0, fs)
  else
    let r := run_pipeline float_of_string midpoint float_repr int_of_string strip
               path_stem path_name w init (a_video_file args)
               (default "BeePoseEstimation" (a_project args))
               (default "manual" (a_scorer args)) fs in
    match status r with
    | Ret true => (Exited 0, files r)
    | Ret false => (Exited 1, files r)
    | Raise e => (Uncaught e, files r)
    end.

End Frontends.

(** *** [h5_converter.py] *)

(** How [deeplabcut] behaves in the converter process: the import, then
    [convertcsv2h5] under the patched [input], with the environment
    variables set, and once more as it is. *)
Record dlc : Type := Dlc {
  dlc_import : import_result;
  dlc_patched_ok : bool;
  dlc_env_ok : bool;
  dlc_plain_ok : bool
}.

Inductive conv_message : Type :=
| ConvCompleted          (* H5 conversion completed successfully *)
| ConvNeedsConfirmation  (* warning: requires manual confirmation *)
| ConvFailed             (* H5 conversion failed *)
| ConvNotInstalled.      (* DeepLabCut is not installed *)

Definition convert_csv_to_h5_auto (d : dlc) : bool * list conv_message :=
  match dlc_import d with
  | ImportMissing => (false, [ConvNotInstalled])
  | ImportFails => (false, [ConvFailed])
  | ImportOk =>
      if dlc_patched_ok d then (true, [ConvCompleted])
      else if dlc_env_ok d then (true, [ConvCompleted])
      else if dlc_plain_ok d then (true, [ConvNeedsConfirmation; ConvCompleted])
      else (false, [ConvNeedsConfirmation; ConvFailed])
  end.

(** [main] of the converter script: the exit status.  [argv] is
    [sys.argv], the script name included. *)
Definition h5_main (argv : list string) (config_exists : string → bool) (d : dlc) : Z :=
  match argv with
  | [_; config_path; scorer] =>
      if negb (config_exists config_path) then 1
      else if (convert_csv_to_h5_auto d).1 then 0 else 1
  | _ => 1
  end.

(** *** [generate_h5_file] and the state of the process

    The same function with what it does to the interpreter it runs in: the
    binding of [builtins.input] and [os.environ].  The subprocesses of
    method 2 have their own, and [convertcsv2h5] is taken to leave both as
    it finds them. *)
Record process_state : Type := ProcessState {
  builtins_input : string;
  environ : gmap string string
}.

Definition set_input (f : string) (ps : process_state) : process_state :=
  ProcessState f (environ ps).

Definition set_env (k v : string) (ps : process_state) : process_state :=
  ProcessState (builtins_input ps) (<[k := v]> (environ ps)).

(** Method 3 *)
Definition h5_batch_in (c : converter) (log : list h5_message) (ps : process_state) :
    bool * list h5_message * process_state :=
  let ps1 := set_env "DLC_BATCH_MODE" "1" ps in
  let ps2 := set_env "PYTHONIOENCODING" "utf-8" ps1 in
  if batch_call_ok c then (true, log ++ [H5Generated], ps2)
  else (true, log ++ [H5PromptWarning], ps2).

(** The fallback of method 2 *)
Definition h5_inline_in (c : converter) (log : list h5_message) (ps : process_state) :
    bool * list h5_message * process_state :=
  match inline_run c with
  | Exit 0 => (true, log ++ [H5Generated], ps)
  | Exit _ => h5_batch_in c log ps
  | ProcRaises => h5_batch_in c log ps
  end.

(** Method 2 *)
Definition h5_subprocess_in (c : converter) (ps : process_state) :
    bool * list h5_message * process_state :=
  if script_exists c then
    match script_run c with
    | Exit 0 => (true, [H5Generated], ps)
    | Exit _ => h5_inline_in c [H5ConverterOutput] ps
    | ProcRaises => h5_batch_in c [] ps
    end
  else h5_inline_in c [] ps.

Definition generate_h5_file_in (c : converter) (ps : process_state) :
    bool * list h5_message * process_state :=
  match import_deeplabcut c with
  | ImportMissing => (true, [H5ImportWarning], ps)
  | ImportFails => (true, [H5Failed], ps)
  | ImportOk =>
      (* Method 1 *)
      let original_input := builtins_input ps in
      let patched := set_input "auto_yes_input" ps in
      if patched_call_ok c then (true, [H5Generated], set_input original_input patched)
      else h5_subprocess_in c (set_input original_input patched)
  end.

(** The four characters of a padded number below ten thousand. *)
Definition digits4 (n : N) : string :=
  String (pretty_N_char (n / 1000)%N)
    (String (pretty_N_char (n / 100 mod 10)%N)
       (String (pretty_N_char (n / 10 mod 10)%N)
          (String (pretty_N_char (n mod 10)%N) EmptyString))).

(** * Properties *)

(** ** The file-name rule is injective *)

Module StrFacts.

Lemma digit_val_char (d : N) :
  (d < 10)%N → Str.digit_val (pretty_N_char d) = d.
Proof.
  intros Hd.
  assert (d = 0 ∨ d = 1 ∨ d = 2 ∨ d = 3 ∨ d = 4 ∨ d = 5 ∨ d = 6
          ∨ d = 7 ∨ d = 8 ∨ d = 9)%N as Hcases by lia.
  repeat (destruct Hcases as [-> | Hcases]; [reflexivity |]).
  by subst.
Qed.

(** Reading back what [pretty_N_go] prepends shifts the accumulator by a
    power of ten and adds the number. *)
Lemma eval_pretty_go (x : N) :
  ∃ k : N, ∀ acc s,
    Str.eval acc (pretty_N_go x s) = Str.eval (acc * k + x)%N s.
Proof.
  induction (N.lt_wf_0 x) as [x _ IH].
  destruct (decide (x = 0%N)) as [-> | Hx].
  - exists 1%N. intros acc s. rewrite pretty_N_go_0. f_equal. lia.
  - destruct (IH (x `div` 10)%N) as [k Hk].
    { apply N.div_lt; lia. }
    exists (10 * k)%N. intros acc s.
    rewrite pretty_N_go_step by lia.
    rewrite Hk. simpl. rewrite digit_val_char by (apply N.mod_lt; lia).
    f_equal. pose proof (N.div_mod x 10). lia.
Qed.

Lemma eval_pretty (x : N) : Str.eval 0 (pretty x) = x.
Proof.
  unfold pretty, pretty_N. case_decide as Hx; [by subst |].
  destruct (eval_pretty_go x) as [k Hk]. rewrite Hk. simpl. lia.
Qed.

Lemma eval_zeros (n : nat) (s : string) :
  Str.eval 0 (Str.zeros n +:+ s) = Str.eval 0 s.
Proof. induction n as [| n IH]; [done |]. simpl. exact IH. Qed.

Lemma eval_zfill (w : nat) (x : N) : Str.eval 0 (Str.zfill w (pretty x)) = x.
Proof. unfold Str.zfill. by rewrite eval_zeros, eval_pretty. Qed.

Lemma pretty_no_dash (x : N) (s : string) : pretty x ≠ String "-" s.
Proof.
  unfold pretty, pretty_N. case_decide; [done |].
  apply (pretty_N_go_ne_dash x "" s). done.
Qed.

Lemma zfill_no_dash (w : nat) (x : N) (s : string) :
  Str.zfill w (pretty x) ≠ String "-" s.
Proof.
  unfold Str.zfill. destruct (w - String.length (pretty x))%nat; simpl.
  - apply pretty_no_dash.
  - discriminate.
Qed.

Lemma unformat_format (n : Z) : Str.unformat (Str.format_04d n) = n.
Proof.
  destruct n as [| p | p]; unfold Str.format_04d.
  - reflexivity.
  - assert (Str.unformat (Str.zfill 4 (pretty (Z.to_N (Z.pos p))))
            = Z.of_N (Str.eval 0 (Str.zfill 4 (pretty (Z.to_N (Z.pos p)))))) as ->.
    { pose proof (zfill_no_dash 4 (Z.to_N (Z.pos p))) as Hd.
      destruct (Str.zfill 4 (pretty (Z.to_N (Z.pos p)))) as [| c s]; [done |].
      unfold Str.unformat.
      destruct (decide (c = "-"%char)) as [-> | Hc]; [by destruct (Hd s) |].
      destruct c as [[] [] [] [] [] [] [] []]; try done. }
    rewrite eval_zfill. lia.
  - change (Str.unformat ("-" +:+ Str.zfill 3 (pretty (N.pos p))))
      with (- Z.of_N (Str.eval 0 (Str.zfill 3 (pretty (N.pos p))))).
    rewrite eval_zfill. lia.
Qed.

Lemma format_04d_inj (a b : Z) : Str.format_04d a = Str.format_04d b → a = b.
Proof.
  intros H. rewrite <- (unformat_format a), <- (unformat_format b). by rewrite H.
Qed.

Lemma to_list_app (s t : string) :
  Strings.String.list_ascii_of_string (s +:+ t) = Strings.String.list_ascii_of_string s ++ Strings.String.list_ascii_of_string t.
Proof. induction s as [| c s IH]; [done |]. simpl. by rewrite <- IH. Qed.

Lemma app_inj_r (s1 s2 t : string) : s1 +:+ t = s2 +:+ t → s1 = s2.
Proof.
  intros H. apply (f_equal Strings.String.list_ascii_of_string) in H.
  rewrite !to_list_app in H. apply app_inv_tail in H.
  rewrite <- (Strings.String.string_of_list_ascii_of_string s1), <- (Strings.String.string_of_list_ascii_of_string s2).
  by rewrite H.
Qed.

End StrFacts.

Lemma frame_filename_inj (a b : Z) : frame_filename a = frame_filename b → a = b.
Proof.
  unfold frame_filename. intros H.
  apply (inj (String.app "frame_")) in H.
  apply StrFacts.app_inj_r in H.
  by apply StrFacts.format_04d_inj.
Qed.

(** ** Frame extraction *)

Section Extraction.

Context {image : Type}.
Variable imwrite : string → image → imwrite_result.
Variable dir : string.
Variables s e : Z.

Local Abbreviation loop := (extract_loop imwrite dir s e).

Lemma in_window_iff (a b i : Z) : in_window a b i = true ↔ a ≤ i ≤ b.
Proof. unfold in_window. rewrite andb_true_iff, !Z.leb_le. lia. Qed.

Lemma frame_path_inj (d : string) (i j : Z) :
  d +:+ frame_filename i = d +:+ frame_filename j → i = j.
Proof. intros H. apply (inj (String.app d)) in H. by apply frame_filename_inj. Qed.

(** One turn of the loop, by what [cv2.imwrite] does with the frame. *)
Lemma extract_loop_cons (frame : image) (rest : list image) (c : Z)
    (ex : extraction) (fs : gmap string (file image)) :
  loop (frame :: rest) c ex fs
  = if in_window s e c then
      match imwrite (dir +:+ frame_filename c) frame with
      | ImwriteTrue =>
          if c + 1 >? e
          then (true, Extraction (S (decoded ex)) (S (extracted_count ex)),
                <[dir +:+ frame_filename c := FImage frame]> fs)
          else loop rest (c + 1)
                    (Extraction (S (decoded ex)) (S (extracted_count ex)))
                    (<[dir +:+ frame_filename c := FImage frame]> fs)
      | ImwriteFalse =>
          if c + 1 >? e
          then (true, Extraction (S (decoded ex)) (S (extracted_count ex)), fs)
          else loop rest (c + 1)
                    (Extraction (S (decoded ex)) (S (extracted_count ex))) fs
      | ImwriteRaises =>
          (false, Extraction (S (decoded ex)) (extracted_count ex), fs)
      end
    else if c + 1 >? e
         then (true, Extraction (S (decoded ex)) (extracted_count ex), fs)
         else loop rest (c + 1) (Extraction (S (decoded ex)) (extracted_count ex)) fs.
Proof.
  simpl. destruct (in_window s e c); [| done].
  by destruct (imwrite (dir +:+ frame_filename c) frame).
Qed.

(** A path keeps its content unless it is the path of a frame of the
    window that decodes and whose write returns [True]. *)
Lemma extract_loop_other (stream : list image) (p : string) :
  ∀ (c : Z) (ex : extraction) (fs : gmap string (file image)),
    (∀ (i : nat) (img : image),
       stream !! i = Some img → s ≤ c + Z.of_nat i ≤ e →
       imwrite (dir +:+ frame_filename (c + Z.of_nat i)) img = ImwriteTrue →
       p ≠ dir +:+ frame_filename (c + Z.of_nat i)) →
    (loop stream c ex fs).2 !! p = fs !! p.
Proof.
  induction stream as [| frame rest IH]; intros c ex fs Hp; [done |].
  assert (∀ ex' fs', (loop rest (c + 1) ex' fs').2 !! p = fs' !! p) as Hrest.
  { intros ex' fs'. apply IH. intros i img Hi Hwin Hw.
    replace (c + 1 + Z.of_nat i) with (c + Z.of_nat (S i)) in * by lia.
    by apply (Hp (S i) img). }
  specialize (Hp 0%nat frame eq_refl). rewrite Z.add_0_r in Hp.
  rewrite extract_loop_cons.
  destruct (in_window s e c) eqn:Hw.
  - apply in_window_iff in Hw.
    destruct (imwrite (dir +:+ frame_filename c) frame) eqn:Hwrite;
      destruct (c + 1 >? e); simpl; rewrite ?Hrest; try done.
    + rewrite lookup_insert_ne; [done |]. intros Heq. by eapply Hp.
    + rewrite lookup_insert_ne; [done |]. intros Heq. by eapply Hp.
  - destruct (c + 1 >? e); simpl; by rewrite ?Hrest.
Qed.

(** Nothing that was in the tree is removed. *)
Lemma extract_loop_dom (stream : list image) :
  ∀ (c : Z) (ex : extraction) (fs : gmap string (file image)),
    dom fs ⊆ dom (loop stream c ex fs).2.
Proof.
  induction stream as [| frame rest IH]; intros c ex fs; [done |].
  rewrite extract_loop_cons.
  destruct (in_window s e c);
    [destruct (imwrite (dir +:+ frame_filename c) frame) |];
    destruct (c + 1 >? e); simpl; try done; try apply IH.
  - rewrite dom_insert. set_solver.
  - etrans; [| apply IH]. rewrite dom_insert. set_solver.
Qed.

(** The loop runs to its end exactly when no write raises. *)
Lemma extract_loop_ok (stream : list image) :
  ∀ (c : Z) (ex : extraction) (fs : gmap string (file image)),
    (loop stream c ex fs).1.1 = true
    ↔ ∀ (i : nat) (img : image),
        stream !! i = Some img → s ≤ c + Z.of_nat i ≤ e →
        imwrite (dir +:+ frame_filename (c + Z.of_nat i)) img ≠ ImwriteRaises.
Proof.
  induction stream as [| frame rest IH]; intros c ex fs.
  { split; [| done]. intros _ i img Hi. by rewrite lookup_nil in Hi. }
  assert (∀ ex' fs',
            (loop rest (c + 1) ex' fs').1.1 = true
            ↔ ∀ (i : nat) (img : image),
                rest !! i = Some img → s ≤ c + Z.of_nat (S i) ≤ e →
                imwrite (dir +:+ frame_filename (c + Z.of_nat (S i))) img
                ≠ ImwriteRaises) as Hrest.
  { intros ex' fs'. rewrite IH. split; intros H i img Hi Hwin.
    - replace (c + Z.of_nat (S i)) with (c + 1 + Z.of_nat i) in * by lia. by apply H.
    - replace (c + 1 + Z.of_nat i) with (c + Z.of_nat (S i)) in * by lia. by apply H. }
  assert ((c + 1 >? e) = true →
          ∀ (i : nat) (img : image),
            rest !! i = Some img → s ≤ c + Z.of_nat (S i) ≤ e →
            imwrite (dir +:+ frame_filename (c + Z.of_nat (S i))) img
            ≠ ImwriteRaises) as Hstop.
  { intros Hbreak%Z.gtb_lt i img _ Hwin. lia. }
  assert (∀ P : nat → image → Prop,
            (∀ i img, (frame :: rest) !! i = Some img → P i img)
            ↔ P 0%nat frame ∧ ∀ i img, rest !! i = Some img → P (S i) img) as Hsplit.
  { intros P. split.
    - intros H. split; [by apply H | intros i img Hi; by apply H].
    - intros [H0 HS] [| i] img Hi; [injection Hi as <-; done | by apply HS]. }
  rewrite (Hsplit (λ i img, s ≤ c + Z.of_nat i ≤ e →
                            imwrite (dir +:+ frame_filename (c + Z.of_nat i)) img
                            ≠ ImwriteRaises)).
  rewrite Z.add_0_r. rewrite extract_loop_cons.
  destruct (in_window s e c) eqn:Hw.
  - apply in_window_iff in Hw.
    destruct (imwrite (dir +:+ frame_filename c) frame) eqn:Hwrite;
      destruct (c + 1 >? e) eqn:Hbreak; simpl; rewrite ?Hrest.
    all: try (split; [intros _; split; [done | by apply Hstop] | done]).
    all: try (split; [intros H; split; [done | exact H] | by intros [_ H]]).
    all: split; [done | intros [H _]; by destruct (H Hw)].
  - assert (¬ s ≤ c ≤ e) as Hout.
    { intros H. apply in_window_iff in H. congruence. }
    destruct (c + 1 >? e) eqn:Hbreak; simpl; rewrite ?Hrest.
    + split; [intros _; split; [done | by apply Hstop] | done].
    + split; [intros H; split; [done | exact H] | by intros [_ H]].
Qed.

(** After a loop that ran to its end, a frame of the window whose write
    returned [True] is in the tree under its name. *)
Lemma extract_loop_landed (stream : list image) :
  ∀ (c : Z) (ex : extraction) (fs : gmap string (file image)) (i : nat) (img : image),
    (loop stream c ex fs).1.1 = true →
    stream !! i = Some img →
    s ≤ c + Z.of_nat i ≤ e →
    imwrite (dir +:+ frame_filename (c + Z.of_nat i)) img = ImwriteTrue →
    (loop stream c ex fs).2 !! (dir +:+ frame_filename (c + Z.of_nat i))
    = Some (FImage img).
Proof.
  induction stream as [| frame rest IH]; intros c ex fs i img Hok Hi Hwin Hwrite;
    [by rewrite lookup_nil in Hi |].
  rewrite extract_loop_cons in *.
  destruct i as [| i].
  - injection Hi as <-. rewrite Z.add_0_r in *.
    rewrite (proj2 (in_window_iff s e c) Hwin), Hwrite in *.
    destruct (c + 1 >? e); simpl; [apply lookup_insert_eq |].
    rewrite extract_loop_other; [apply lookup_insert_eq |].
    intros j img' _ _ _ Heq. apply frame_path_inj in Heq. lia.
  - simpl in Hi.
    replace (c + Z.of_nat (S i)) with (c + 1 + Z.of_nat i) in * by lia.
    assert ((c + 1 >? e) = false) as Hgo.
    { destruct (Z.gtb_spec (c + 1) e); [lia | done]. }
    rewrite Hgo in *.
    destruct (in_window s e c);
      [destruct (imwrite (dir +:+ frame_filename c) frame); [| | done] |];
      by apply IH.
Qed.

(** The counters of a loop that ran to its end. *)
Lemma extract_loop_counters (stream : list image) :
  ∀ (c : Z) (ex : extraction) (fs : gmap string (file image)),
    c ≤ e →
    (loop stream c ex fs).1.1 = true →
    decoded (loop stream c ex fs).1.2
    = (decoded ex + Z.to_nat (Z.min (Z.of_nat (length stream)) (e - c + 1)))%nat
    ∧ extracted_count (loop stream c ex fs).1.2
      = (extracted_count ex
         + Z.to_nat (Z.min (c + Z.of_nat (length stream)) (e + 1) - Z.max s c))%nat.
Proof.
  induction stream as [| frame rest IH]; intros c ex fs Hc Hok.
  { simpl. lia. }
  rewrite extract_loop_cons in *. unfold in_window in *.
  destruct (Z.leb_spec s c), (Z.leb_spec c e); simpl in *; try lia.
  - destruct (imwrite (dir +:+ frame_filename c) frame); [| | done];
      destruct (Z.gtb_spec (c + 1) e); simpl in *; try lia;
        (destruct (IH (c + 1) _ _ ltac:(lia) Hok) as [-> ->]; simpl length; simpl; lia).
  - destruct (Z.gtb_spec (c + 1) e); simpl in *; try lia;
      (destruct (IH (c + 1) _ _ ltac:(lia) Hok) as [-> ->]; simpl length; simpl; lia).
Qed.

End Extraction.

Section Properties.

Context {coord image : Type}.
Variable float_of_string : string → option coord.
Variable midpoint : coord → coord → coord.
Variable float_repr : coord → string.
Variable int_of_string : string → option Z.
Variable strip : string → string.
Variable path_stem : string → string.
Variable path_name : string → string.

Local Abbreviation parse := (parse_cvat_xml float_of_string midpoint).
Local Abbreviation select := (interactive_frame_selection int_of_string strip).
Local Abbreviation csv := (create_deeplabcut_csv (image := image) float_repr path_stem).
Local Abbreviation config := (create_deeplabcut_config (image := image) path_name).
Local Abbreviation run := (run_pipeline (image := image) float_of_string midpoint
                         float_repr int_of_string strip path_stem path_name).
Local Abbreviation gui_run := (run_conversion (image := image) float_of_string midpoint
                             float_repr path_stem path_name).

(** ** Parsing *)

Local Abbreviation shape_step := (process_shape float_of_string midpoint).
Local Abbreviation contrib := (contribution float_of_string midpoint).
Local Abbreviation raises := (shape_raises float_of_string).

Lemma keypoint_ensure_frame (f0 : Z) (ann : gmap Z (gmap string (coord * coord)))
    (f : Z) (n : string) :
  keypoint (ensure_frame f0 ann) f n = keypoint ann f n.
Proof.
  unfold keypoint, ensure_frame. destruct (ann !! f0) eqn:H0; [done |].
  destruct (decide (f0 = f)) as [<- | Hne].
  - by rewrite lookup_insert_eq, H0.
  - by rewrite lookup_insert_ne.
Qed.

Lemma keypoint_set_keypoint (f0 : Z) (n0 : string) (xy : coord * coord)
    (ann : gmap Z (gmap string (coord * coord))) (f : Z) (n : string) :
  keypoint (set_keypoint f0 n0 xy ann) f n
  = if decide ((f0, n0) = (f, n)) then Some xy else keypoint ann f n.
Proof.
  unfold keypoint, set_keypoint.
  destruct (decide (f0 = f)) as [<- | Hf].
  - rewrite lookup_insert_eq. simpl.
    destruct (decide (n0 = n)) as [<- | Hn].
    + rewrite lookup_insert_eq. by rewrite decide_True.
    + rewrite lookup_insert_ne by done. rewrite decide_False by congruence.
      by destruct (ann !! f0).
  - rewrite lookup_insert_ne by done. by rewrite decide_False by congruence.
Qed.

Lemma dom_ensure_frame (f0 : Z) (ann : gmap Z (gmap string (coord * coord))) :
  dom (ensure_frame f0 ann) = dom ann ∪ {[f0]}.
Proof.
  clear float_of_string midpoint float_repr int_of_string strip path_stem path_name.
  unfold ensure_frame. destruct (ann !! f0) eqn:H0.
  - assert (f0 ∈ dom ann) by (apply elem_of_dom; eauto). set_solver.
  - rewrite dom_insert_L. set_solver.
Qed.

Lemma dom_set_keypoint (f0 : Z) (n0 : string) (xy : coord * coord)
    (ann : gmap Z (gmap string (coord * coord))) :
  dom (set_keypoint f0 n0 xy ann) = dom ann ∪ {[f0]}.
Proof.
  clear float_of_string midpoint float_repr int_of_string strip path_stem path_name.
  unfold set_keypoint. rewrite dom_insert_L. set_solver.
Qed.

Lemma latest_app (f : Z) (n : string) (a b : list (Z * string * (coord * coord))) :
  latest f n (a ++ b) = or_else (latest f n b) (latest f n a).
Proof.
  induction a as [| c a IH]; simpl.
  - by destruct (latest f n b).
  - rewrite IH. by destruct (latest f n b).
Qed.

(** What one loop iteration does to the accumulator. *)
Lemma process_shape_spec (lbl : string) (acc : acc_t coord) (sh : shape coord) :
  raises sh = false →
  ∃ acc' : acc_t coord,
    shape_step lbl acc sh = Ret acc'
    ∧ acc'.2 = acc.2 ∪ list_to_set ((λ c, c.1.2) <$> option_list (contrib lbl sh))
    ∧ dom acc'.1 = dom acc.1 ∪ {[shape_frame sh]}
    ∧ ∀ f n, keypoint acc'.1 f n
             = or_else (latest f n (option_list (contrib lbl sh))) (keypoint acc.1 f n).
Proof.
  clear float_repr int_of_string strip path_stem path_name.
  intros Hraise. destruct sh as [fr xtl ytl xbr ybr | fr pts]; simpl in *.
  - eexists. split; [reflexivity |]. simpl. split; [set_solver |]. split.
    + rewrite dom_set_keypoint, dom_ensure_frame. set_solver.
    + intros f n. rewrite keypoint_set_keypoint, keypoint_ensure_frame.
      by case_decide.
  - destruct (points_coords float_of_string pts) as [[xy |] | ex]; [| | done]; simpl.
    + eexists. split; [reflexivity |]. simpl. split; [set_solver |]. split.
      * rewrite dom_set_keypoint, dom_ensure_frame. set_solver.
      * intros f n. rewrite keypoint_set_keypoint, keypoint_ensure_frame.
        by case_decide.
    + eexists. split; [reflexivity |]. simpl. split; [set_solver |]. split.
      * by rewrite dom_ensure_frame.
      * intros f n. by rewrite keypoint_ensure_frame.
Qed.

Lemma omap_cons_list {A B} (g : A → option B) (x : A) (l : list A) :
  omap g (x :: l) = option_list (g x) ++ omap g l.
Proof. simpl. by destruct (g x). Qed.

Lemma or_else_assoc {A} (a b c : option A) :
  or_else a (or_else b c) = or_else (or_else a b) c.
Proof. by destruct a. Qed.

Lemma fold_shapes_spec (lbl : string) (l : list (shape coord)) :
  ∀ acc : acc_t coord,
    forallb (λ sh, negb (raises sh)) l = true →
    ∃ acc' : acc_t coord,
      ofold (shape_step lbl) acc l = Ret acc'
      ∧ acc'.2 = acc.2 ∪ list_to_set ((λ c, c.1.2) <$> omap (contrib lbl) l)
      ∧ dom acc'.1 = dom acc.1 ∪ list_to_set (shape_frame <$> l)
      ∧ ∀ f n, keypoint acc'.1 f n
               = or_else (latest f n (omap (contrib lbl) l)) (keypoint acc.1 f n).
Proof.
  clear float_repr int_of_string strip path_stem path_name.
  induction l as [| sh l IH]; intros acc Hl.
  - exists acc. simpl. split; [done |]. split; [set_solver |]. split; [set_solver | done].
  - simpl in Hl. apply andb_true_iff in Hl as [Hsh Hl]. apply negb_true_iff in Hsh.
    destruct (process_shape_spec lbl acc sh Hsh) as (acc1 & Hs & Hn1 & Hd1 & Hk1).
    destruct (IH acc1 Hl) as (acc2 & Hf & Hn2 & Hd2 & Hk2).
    exists acc2. split; [simpl; rewrite Hs; exact Hf |].
    rewrite omap_cons_list, fmap_app, list_to_set_app_L, fmap_cons, list_to_set_cons.
    rewrite Hn2, Hn1, Hd2, Hd1.
    split; [set_solver |]. split; [set_solver |].
    intros f n. rewrite Hk2, Hk1, latest_app. apply or_else_assoc.
Qed.

Lemma filter_is_box_raises (l : list (shape coord)) :
  forallb (λ sh, negb (raises sh)) l = true →
  forallb (λ sh, negb (raises sh)) (filter is_box l) = true
  ∧ forallb (λ sh, negb (raises sh)) (filter is_points l) = true.
Proof.
  rewrite !forallb_forall. intros H. split; intros sh Hin;
    apply H; apply list_elem_of_In; apply list_elem_of_In in Hin;
    by apply list_elem_of_filter in Hin as [_ ?].
Qed.

Lemma center_name_ne (lbl : string) : center_name lbl ≠ lbl.
Proof.
  unfold center_name. intros H.
  apply (f_equal String.length) in H.
  assert (∀ a b, String.length (a +:+ b) = (String.length a + String.length b)%nat) as Hlen.
  { intros a b. induction a as [| c a IHa]; simpl; [done | by rewrite <- IHa]. }
  rewrite Hlen in H. simpl in H. lia.
Qed.

Lemma or_else_None_r {A} (a : option A) : or_else a None = a.
Proof. by destruct a. Qed.

(** Shapes that say nothing about a keypoint can be skipped. *)
Lemma latest_filter (lbl : string) (P : shape coord → bool) (f : Z) (n : string)
    (l : list (shape coord)) :
  (∀ sh, P sh = false → latest f n (option_list (contrib lbl sh)) = None) →
  latest f n (omap (contrib lbl) (filter P l)) = latest f n (omap (contrib lbl) l).
Proof.
  intros HP. induction l as [| sh l IH]; [done |].
  destruct (P sh) eqn:Hsh.
  - rewrite filter_cons_True by (rewrite Hsh; exact I).
    by rewrite !omap_cons_list, !latest_app, IH.
  - rewrite filter_cons_False by (rewrite Hsh; exact id).
    by rewrite omap_cons_list, latest_app, HP, or_else_None_r.
Qed.

Lemma latest_none (lbl : string) (f : Z) (n : string) (l : list (shape coord)) :
  (∀ sh, sh ∈ l → latest f n (option_list (contrib lbl sh)) = None) →
  latest f n (omap (contrib lbl) l) = None.
Proof.
  clear float_repr int_of_string strip path_stem path_name.
  induction l as [| sh l IH]; intros H; [done |].
  rewrite omap_cons_list, latest_app, IH, H; [done | set_solver | set_solver].
Qed.

(** A box contributes under the centre name only, a points element under
    the label only. *)
Lemma box_other_name (lbl : string) (f : Z) (n : string) (sh : shape coord) :
  n ≠ center_name lbl → is_points sh = false →
  latest f n (option_list (contrib lbl sh)) = None.
Proof.
  intros Hn Hsh. destruct sh as [fr xtl ytl xbr ybr | fr pts]; [| done].
  simpl. rewrite decide_False; [done |]. simpl. congruence.
Qed.

Lemma points_other_name (lbl : string) (f : Z) (n : string) (sh : shape coord) :
  n ≠ lbl → is_box sh = false →
  latest f n (option_list (contrib lbl sh)) = None.
Proof.
  intros Hn Hsh. destruct sh as [fr xtl ytl xbr ybr | fr pts]; [done |].
  simpl. destruct (points_coords float_of_string pts) as [[p |] | ex]; [| done..].
  simpl. rewrite decide_False; [done |]. simpl. congruence.
Qed.

(** Visiting the boxes of a track before its points gives every keypoint
    the value it has in document order. *)
Lemma latest_boxes_then_points (lbl : string) (l : list (shape coord)) (f : Z) (n : string) :
  latest f n (omap (contrib lbl) (filter is_box l ++ filter is_points l))
  = latest f n (omap (contrib lbl) l).
Proof.
  clear float_repr int_of_string strip path_stem path_name.
  rewrite omap_app, latest_app.
  destruct (decide (n = lbl)) as [-> | Hn].
  - pose proof (center_name_ne lbl) as Hc.
    assert (latest f lbl (omap (contrib lbl) (filter is_box l)) = None) as ->.
    { apply latest_none. intros sh Hin. apply list_elem_of_filter in Hin as [Hb _].
      apply box_other_name; [done |]. by destruct sh. }
    rewrite or_else_None_r. apply latest_filter.
    intros sh Hsh. by apply box_other_name.
  - assert (latest f n (omap (contrib lbl) (filter is_points l)) = None) as ->.
    { apply latest_none. intros sh Hin. apply list_elem_of_filter in Hin as [Hb _].
      apply points_other_name; [done |]. by destruct sh. }
    simpl. apply latest_filter.
    intros sh Hsh. by apply points_other_name.
Qed.

Lemma boxes_points_perm (l : list (shape coord)) :
  filter is_box l ++ filter is_points l ≡ₚ l.
Proof.
  induction l as [| sh l IH]; [done |].
  destruct sh as [fr xtl ytl xbr ybr | fr pts].
  - rewrite filter_cons_True by exact I. rewrite filter_cons_False by exact id.
    simpl. by rewrite IH.
  - rewrite filter_cons_False by exact id. rewrite filter_cons_True by exact I.
    rewrite <- Permutation_middle. by rewrite IH.
Qed.

Local Abbreviation track_step := (process_track float_of_string midpoint).
Local Abbreviation track_contribs := (track_contributions float_of_string midpoint).

Lemma process_track_spec (acc : acc_t coord) (t : track coord) :
  forallb (λ sh, negb (raises sh)) (shapes t) = true →
  ∃ acc' : acc_t coord,
    track_step acc t = Ret acc'
    ∧ acc'.2 = acc.2 ∪ list_to_set ((λ c, c.1.2) <$> track_contribs t)
    ∧ dom acc'.1 = dom acc.1 ∪ list_to_set (shape_frame <$> shapes t)
    ∧ ∀ f n, keypoint acc'.1 f n
             = or_else (latest f n (track_contribs t)) (keypoint acc.1 f n).
Proof.
  clear float_repr int_of_string strip path_stem path_name.
  intros Hr. destruct (filter_is_box_raises _ Hr) as [Hb Hp].
  destruct (fold_shapes_spec (label t) _ acc Hb) as (acc1 & Hs1 & Hn1 & Hd1 & Hk1).
  destruct (fold_shapes_spec (label t) _ acc1 Hp) as (acc2 & Hs2 & Hn2 & Hd2 & Hk2).
  exists acc2. unfold process_track, track_contributions. rewrite Hs1. simpl.
  split; [exact Hs2 |].
  rewrite Hn2, Hn1, Hd2, Hd1, <- !(assoc_L (∪)), <- !list_to_set_app_L, <- !fmap_app,
    <- omap_app.
  rewrite !(boxes_points_perm (shapes t)).
  split; [done |]. split; [done |].
  intros f n. by rewrite Hk2, Hk1, or_else_assoc, <- latest_app, <- omap_app,
    latest_boxes_then_points.
Qed.

Lemma fold_tracks_spec (l : list (track coord)) :
  ∀ acc : acc_t coord,
    forallb (λ t, forallb (λ sh, negb (raises sh)) (shapes t)) l = true →
    ∃ acc' : acc_t coord,
      ofold track_step acc l = Ret acc'
      ∧ acc'.2 = acc.2 ∪ list_to_set ((λ c, c.1.2) <$> concat (map track_contribs l))
      ∧ dom acc'.1
        = dom acc.1 ∪ list_to_set (concat (map (λ t, shape_frame <$> shapes t) l))
      ∧ ∀ f n, keypoint acc'.1 f n
               = or_else (latest f n (concat (map track_contribs l)))
                         (keypoint acc.1 f n).
Proof.
  clear float_repr int_of_string strip path_stem path_name.
  induction l as [| t l IH]; intros acc Hl.
  - exists acc. simpl. split; [done |]. split; [set_solver |]. split; [set_solver | done].
  - simpl in Hl. apply andb_true_iff in Hl as [Ht Hl].
    destruct (process_track_spec acc t Ht) as (acc1 & Hs & Hn1 & Hd1 & Hk1).
    destruct (IH acc1 Hl) as (acc2 & Hf & Hn2 & Hd2 & Hk2).
    exists acc2. split; [simpl; rewrite Hs; exact Hf |].
    simpl. rewrite fmap_app, !list_to_set_app_L, Hn2, Hn1, Hd2, Hd1.
    split; [set_solver |]. split; [set_solver |].
    intros f n. rewrite Hk2, Hk1, latest_app. apply or_else_assoc.
Qed.

(** What parsing a readable export leaves in the pipeline state. *)
Lemma parse_spec (st : pipeline coord) (doc : document coord) :
  readable float_of_string doc = true →
  ∃ st' : pipeline coord,
    parse st (Parsed doc) = Ret (true, st')
    ∧ bodyparts st'
      = sorted_names (list_to_set ((λ c, c.1.2)
                                     <$> contributions float_of_string midpoint doc))
    ∧ dom (annotations st') = list_to_set (shape_frames doc)
    ∧ (∀ f n, keypoint (annotations st') f n
              = latest f n (contributions float_of_string midpoint doc))
    ∧ frame_selection st' = frame_selection st
    ∧ frame_range st' = frame_range st.
Proof.
  clear float_repr int_of_string strip path_stem path_name.
  intros Hr. unfold readable in Hr.
  destruct (fold_tracks_spec (tracks doc) (∅, ∅) Hr) as (acc & Hf & Hn & Hd & Hk).
  eexists. unfold parse_cvat_xml. rewrite Hf. simpl.
  split; [reflexivity |]. simpl.
  split; [| split; [| split]].
  - rewrite Hn. simpl. by rewrite (left_id_L ∅ (∪)).
  - rewrite Hd. simpl. rewrite dom_empty_L. by rewrite (left_id_L ∅ (∪)).
  - intros f n. rewrite Hk. simpl.
    replace (keypoint (∅ : gmap Z (gmap string (coord * coord))) f n) with (@None (coord * coord)).
    + apply or_else_None_r.
    + unfold keypoint. by rewrite lookup_empty.
  - done.
Qed.

Lemma latest_absent (f : Z) (n : string) (cs : list (Z * string * (coord * coord))) :
  Forall (λ c, c.1 ≠ (f, n)) cs → latest f n cs = None.
Proof.
  induction 1 as [| c cs Hc _ IH]; [done |].
  simpl. rewrite IH. by rewrite decide_False.
Qed.

Lemma latest_last (f : Z) (n : string)
    (before after : list (Z * string * (coord * coord)))
    (c : Z * string * (coord * coord)) :
  c.1 = (f, n) →
  Forall (λ c', c'.1 ≠ (f, n)) after →
  latest f n (before ++ c :: after) = Some c.2.
Proof.
  intros Hc Hafter. rewrite latest_app. simpl.
  rewrite (latest_absent _ _ _ Hafter). by rewrite decide_True.
Qed.

(** C10: a frame annotation holds one position per keypoint name, the
    one given by the last shape, in document order, that yields this name
    for this frame; positions given by earlier shapes are gone, and
    parsing still reports success. *)
Theorem later_shape_overwrites (st : pipeline coord) (doc : document coord) :
  readable float_of_string doc = true →
  ∃ st' : pipeline coord,
    parse st (Parsed doc) = Ret (true, st')
    ∧ (∀ f n, keypoint (annotations st') f n
              = latest f n (contributions float_of_string midpoint doc))
    ∧ (∀ before c after,
         contributions float_of_string midpoint doc = before ++ c :: after →
         Forall (λ c', c'.1 ≠ c.1) after →
         keypoint (annotations st') c.1.1 c.1.2 = Some c.2).
Proof.
  clear float_repr int_of_string strip path_stem path_name.
  intros Hr. destruct (parse_spec st doc Hr) as (st' & Hp & _ & _ & Hk & _).
  exists st'. split; [done |]. split; [done |].
  intros before c after Hdoc Hafter. rewrite Hk, Hdoc.
  apply latest_last; [by destruct c as [[] ?] |].
  by destruct c as [[] ?].
Qed.

(** ** The keypoint vocabulary *)

Lemma shape_valid_readable (sh : shape coord) :
  shape_valid float_of_string sh = true → raises sh = false.
Proof.
  destruct sh as [fr xtl ytl xbr ybr | fr pts]; simpl; [done |].
  by destruct (points_coords float_of_string pts) as [[] |].
Qed.

Lemma valid_export_readable (doc : document coord) :
  valid_export float_of_string doc = true → readable float_of_string doc = true.
Proof.
  unfold valid_export, readable. rewrite !forallb_forall.
  intros H t Ht. specialize (H t Ht). rewrite forallb_forall in *.
  intros sh Hsh. by rewrite (shape_valid_readable sh (H sh Hsh)).
Qed.

Lemma elem_of_concat_map {A B} (g : A → list B) (l : list A) (y : B) :
  y ∈ concat (map g l) ↔ ∃ x, x ∈ l ∧ y ∈ g x.
Proof.
  induction l as [| a l IH]; simpl.
  - split; [by intros ?%elem_of_nil | by intros (? & ?%elem_of_nil & _)].
  - rewrite elem_of_app, IH. setoid_rewrite elem_of_cons. naive_solver.
Qed.

(** The name a valid shape yields. *)
Lemma valid_shape_name (lbl : string) (sh : shape coord) :
  shape_valid float_of_string sh = true →
  (λ c, c.1.2) <$> contrib lbl sh
  = Some (if is_box sh then center_name lbl else lbl).
Proof.
  destruct sh as [fr xtl ytl xbr ybr | fr pts]; simpl; [done |].
  by destruct (points_coords float_of_string pts) as [[] |].
Qed.

Lemma names_of_valid_export (doc : document coord) (n : string) :
  valid_export float_of_string doc = true →
  n ∈ (λ c, c.1.2) <$> contributions float_of_string midpoint doc
  ↔ n ∈ box_derived_names doc ++ point_derived_names doc.
Proof.
  intros Hv. unfold valid_export in Hv. rewrite forallb_forall in Hv.
  assert (∀ t sh, t ∈ tracks doc → sh ∈ shapes t →
                  shape_valid float_of_string sh = true) as Hvalid.
  { intros t sh Ht Hsh. apply list_elem_of_In in Ht, Hsh.
    specialize (Hv t Ht). rewrite forallb_forall in Hv. auto. }
  clear Hv.
  unfold contributions, box_derived_names, point_derived_names, track_contributions.
  rewrite list_elem_of_fmap, elem_of_app, !list_elem_of_bind.
  setoid_rewrite elem_of_concat_map. setoid_rewrite list_elem_of_omap.
  setoid_rewrite list_elem_of_bind.
  split.
  - intros (c & -> & t & Ht & sh & Hsh & Hc).
    pose proof (valid_shape_name (label t) sh (Hvalid t sh Ht Hsh)) as Hname.
    rewrite Hc in Hname. simpl in Hname. injection Hname as Hname.
    destruct sh as [fr xtl ytl xbr ybr | fr pts]; simpl in Hname.
    + left. exists t. split; [| done]. eexists. split; [| done].
      simpl. rewrite Hname. apply list_elem_of_singleton. done.
    + right. exists t. split; [| done]. eexists. split; [| done].
      simpl. rewrite Hname. apply list_elem_of_singleton. done.
  - intros [(t & (sh & Hn & Hsh) & Ht) | (t & (sh & Hn & Hsh) & Ht)];
      pose proof (valid_shape_name (label t) sh (Hvalid t sh Ht Hsh)) as Hname;
      destruct (contrib (label t) sh) as [c |] eqn:Hc; simpl in Hname; try done;
      injection Hname as Hname;
      destruct sh as [fr xtl ytl xbr ybr | fr pts]; simpl in Hn, Hname;
      try (by apply elem_of_nil in Hn);
      apply list_elem_of_singleton in Hn; subst n;
      exists c; (split; [done |]); exists t; (split; [done |]); eauto.
Qed.

Lemma sorted_names_spec (names : gset string) :
  Sorted String.le (sorted_names names)
  ∧ NoDup (sorted_names names)
  ∧ ∀ n, n ∈ sorted_names names ↔ n ∈ names.
Proof.
  unfold sorted_names. split; [| split].
  - apply (Sorted_merge_sort String.le).
  - rewrite merge_sort_Permutation. apply NoDup_elements.
  - intros n. rewrite merge_sort_Permutation. apply elem_of_elements.
Qed.

(** ** The stages after parsing leave the parsed data alone *)

Lemma get_video_info_keeps (st : pipeline coord) (vp : string)
    (src : video_source coord image) :
  bodyparts (get_video_info st vp src).2 = bodyparts st
  ∧ annotations (get_video_info st vp src).2 = annotations st
  ∧ frame_range (get_video_info st vp src).2 = frame_range st.
Proof.
  unfold get_video_info. destruct src as [cap | ex]; [| done].
  by destruct (cap_opened cap).
Qed.

Lemma select_keeps (inputs : list string) :
  ∀ (st st' : pipeline coord) (rest : list string),
    select st inputs = Ret (st', rest) →
    bodyparts st' = bodyparts st
    ∧ annotations st' = annotations st
    ∧ video_info st' = video_info st.
Proof.
  induction inputs as [| choice inputs IH]; intros st st' rest; simpl; [done |].
  repeat case_decide.
  - destruct (total_frames (video_info st)); [| done]. by intros [= <- _].
  - destruct (total_frames (video_info st)); [| done].
    destruct (range_loop int_of_string _ inputs) as [[r rest'] |]; [| done].
    by intros [= <- _].
  - apply IH.
Qed.

Lemma gui_set_range_keeps (gi : gui_inputs) (st st' : pipeline coord) :
  gui_set_range gi st = Ret st' →
  bodyparts st' = bodyparts st
  ∧ annotations st' = annotations st
  ∧ video_info st' = video_info st.
Proof.
  unfold gui_set_range. destruct (gi_selection gi).
  - destruct (total_frames (video_info st)); [| done]. by intros [= <-].
  - by intros [= <-].
Qed.

(** Wherever a run stops, its state holds the vocabulary and the
    annotation index as parsing left them. *)
Lemma run_keeps_parsed (w : world coord image) (st st1 : pipeline coord)
    (vp pn sc : string) (fs : gmap string (file image)) :
  parse st (w_xml w) = Ret (true, st1) →
  bodyparts (final_state (run w st vp pn sc fs)) = bodyparts st1
  ∧ annotations (final_state (run w st vp pn sc fs)) = annotations st1.
Proof.
  intros Hp. unfold run_pipeline. rewrite Hp.
  pose proof (get_video_info_keeps st1 vp (w_video w)) as (Hb & Ha & _).
  destruct (get_video_info st1 vp (w_video w)) as [[] st2]; simpl in *; [| done].
  destruct (select st2 (w_inputs w)) as [[st3 rest] |] eqn:Hsel; [| done].
  apply select_keeps in Hsel as (Hb3 & Ha3 & _).
  rewrite <- Hb, <- Ha, <- Hb3, <- Ha3.
  repeat (case_match; simpl; try done).
Qed.

Lemma gui_run_keeps_parsed (w : world coord image) (st1 : pipeline coord)
    (gi : gui_inputs) (fs : gmap string (file image)) :
  parse init (w_xml w) = Ret (true, st1) →
  bodyparts (final_state (gui_run w gi fs)) = bodyparts st1
  ∧ annotations (final_state (gui_run w gi fs)) = annotations st1.
Proof.
  intros Hp. unfold run_conversion. rewrite Hp.
  pose proof (get_video_info_keeps st1 (gi_video_file gi) (w_video w)) as (Hb & Ha & _).
  destruct (get_video_info st1 (gi_video_file gi) (w_video w)) as [[] st2];
    simpl in *; [| done].
  destruct (gui_set_range gi st2) as [st3 |] eqn:Hsel; [| done].
  apply gui_set_range_keeps in Hsel as (Hb3 & Ha3 & _).
  rewrite <- Hb, <- Ha, <- Hb3, <- Ha3.
  repeat (case_match; simpl; try done).
Qed.

(** C5: for a valid export parsing succeeds and the vocabulary is the
    sorted, duplicate-free list of the box-derived names
    [<label>_center] and the point-derived names [<label>] of all
    tracks; no later stage of a run, command line or GUI, changes it. *)
Theorem vocabulary_sorted_union (st : pipeline coord) (doc : document coord) :
  valid_export float_of_string doc = true →
  ∃ st' : pipeline coord,
    parse st (Parsed doc) = Ret (true, st')
    ∧ Sorted String.le (bodyparts st')
    ∧ NoDup (bodyparts st')
    ∧ (∀ n, n ∈ bodyparts st' ↔ n ∈ box_derived_names doc ++ point_derived_names doc)
    ∧ (∀ (w : world coord image) vp pn sc fs,
         w_xml w = Parsed doc →
         bodyparts (final_state (run w st vp pn sc fs)) = bodyparts st')
    ∧ (∀ (w : world coord image) gi fs,
         w_xml w = Parsed doc →
         bodyparts (final_state (gui_run w gi fs)) = bodyparts st').
Proof.
  intros Hv. pose proof (valid_export_readable doc Hv) as Hr.
  destruct (parse_spec st doc Hr) as (st' & Hp & Hb & _).
  exists st'. split; [done |].
  destruct (sorted_names_spec
              (list_to_set ((λ c, c.1.2)
                              <$> contributions float_of_string midpoint doc)))
    as (Hsorted & Hnodup & Hmem).
  rewrite Hb. split; [done |]. split; [done |]. split; [| split].
  - intros n. rewrite Hmem, elem_of_list_to_set. by apply names_of_valid_export.
  - intros w vp pn sc fs Hw. rewrite <- Hb.
    apply run_keeps_parsed. by rewrite Hw.
  - intros w gi fs Hw.
    destruct (parse_spec init doc Hr) as (st0 & Hp0 & Hb0 & _).
    rewrite <- Hb0. apply gui_run_keeps_parsed. by rewrite Hw.
Qed.

(** ** Table assembly *)

Lemma StronglySorted_filter {A} (R : relation A) (P : A → Prop)
    `{∀ x, Decision (P x)} (l : list A) :
  StronglySorted R l → StronglySorted R (filter P l).
Proof.
  induction 1 as [| x l Hl IH Hx]; [constructor |].
  rewrite filter_cons. case_decide; [| done].
  constructor; [done |].
  apply Forall_forall. intros y Hy. apply list_elem_of_filter in Hy as [_ Hy].
  rewrite Forall_forall in Hx. auto.
Qed.

(** The rows of the table follow the frames of the window that have an
    entry in the annotation index, in ascending order, each once. *)
Lemma valid_frames_spec (st : pipeline coord) :
  (∀ f, f ∈ valid_frames st
        ↔ (frame_range st).1 ≤ f ≤ (frame_range st).2 ∧ f ∈ dom (annotations st))
  ∧ NoDup (valid_frames st)
  ∧ StronglySorted Z.le (valid_frames st).
Proof.
  unfold valid_frames. split; [| split].
  - intros f. rewrite list_elem_of_filter, merge_sort_Permutation, elem_of_elements.
    by rewrite <- in_window_iff, Is_true_true.
  - apply NoDup_filter. rewrite merge_sort_Permutation. apply NoDup_elements.
  - apply StronglySorted_filter. apply StronglySorted_merge_sort; apply _.
Qed.

Lemma csv_no_frames (st : pipeline coord) (sc vf : string) (writable : bool)
    (fs : gmap string (file image)) :
  video_file (video_info st) = Some vf →
  valid_frames st = [] →
  csv st sc writable fs = Ret (false, fs).
Proof. intros Hvf Hnone. unfold create_deeplabcut_csv. by rewrite Hvf, Hnone. Qed.

Lemma csv_true_frames (st : pipeline coord) (sc : string) (writable : bool)
    (fs fs' : gmap string (file image)) :
  csv st sc writable fs = Ret (true, fs') → valid_frames st ≠ [].
Proof.
  unfold create_deeplabcut_csv. destruct (video_file (video_info st)); [| done].
  by destruct (valid_frames st).
Qed.

Lemma csv_false_files (st : pipeline coord) (sc : string) (writable : bool)
    (fs fs' : gmap string (file image)) :
  csv st sc writable fs = Ret (false, fs') → fs' = fs.
Proof.
  unfold create_deeplabcut_csv. destruct (video_file (video_info st)); [| done].
  destruct (valid_frames st); [by intros [= <-] |].
  destruct writable; [done | by intros [= <-]].
Qed.

(** Extraction writes below [labeled-data/<video name>/] only, and
    removes nothing. *)
Lemma extract_frames_other (st : pipeline coord) (vp p : string)
    (src : video_source coord image) (imwrite : string → image → imwrite_result)
    (fs : gmap string (file image)) :
  (∀ name, p ≠ frames_dir (path_stem vp) +:+ name) →
  (extract_frames path_stem st vp src imwrite fs).2 !! p = fs !! p.
Proof.
  intros Hp. unfold extract_frames. destruct src as [cap | e]; [| done].
  destruct (cap_opened cap); [| done]. simpl.
  apply extract_loop_other. intros i img _ _ _. apply Hp.
Qed.

Lemma extract_frames_dom (st : pipeline coord) (vp : string)
    (src : video_source coord image) (imwrite : string → image → imwrite_result)
    (fs : gmap string (file image)) :
  dom fs ⊆ dom (extract_frames path_stem st vp src imwrite fs).2.
Proof.
  unfold extract_frames. destruct src as [cap | e]; [| done].
  destruct (cap_opened cap); [| done]. simpl. apply extract_loop_dom.
Qed.

Lemma config_not_an_image (vn name : string) : config_path ≠ frames_dir vn +:+ name.
Proof. unfold config_path, frames_dir. intros H. vm_compute in H. discriminate. Qed.

(** A run whose window holds no indexed frame does not succeed and
    leaves the descriptor as it found it. *)
Lemma run_without_frames (w : world coord image) (st : pipeline coord)
    (vp pn sc : string) (fs : gmap string (file image)) :
  valid_frames (final_state (run w st vp pn sc fs)) = [] →
  status (run w st vp pn sc fs) ≠ Ret true
  ∧ files (run w st vp pn sc fs) !! config_path = fs !! config_path.
Proof.
  unfold run_pipeline.
  destruct (parse st (w_xml w)) as [[[] st1] | ex]; simpl; [| done..].
  destruct (get_video_info st1 vp (w_video w)) as [[] st2]; simpl; [| done].
  destruct (select st2 (w_inputs w)) as [[st3 rest] | ex]; simpl; [| done].
  pose proof (extract_frames_other st3 vp config_path (w_video w) (w_imwrite w) fs
                (λ name, config_not_an_image (path_stem vp) name)) as Hcfg.
  destruct (extract_frames path_stem st3 vp (w_video w) (w_imwrite w) fs)
    as [[[] ex] fs1]; simpl in *; [| done].
  destruct (csv st3 sc (w_csv_writable w) _) as [[[] fs2] | e] eqn:Hcsv; simpl.
  - apply csv_true_frames in Hcsv. intros Hnone.
    assert (∀ r : run_result coord image, final_state r = st3 →
              valid_frames (final_state r) = [] → False) as Habs.
    { intros r -> Hr. done. }
    exfalso. revert Hnone. apply Habs.
    repeat (case_match; simpl; try done).
  - apply csv_false_files in Hcsv as ->. intros _. split; done.
  - intros _. split; done.
Qed.

Lemma row_image_data_row (st : pipeline coord) (vn : string) (f : Z) :
  row_image (data_row st vn f) = Some (frame_filename f).
Proof. done. Qed.

(** C2 (amended): the table holds exactly one data row per frame index
    of the window that has an entry in the annotation index, in ascending
    order; parsing makes an entry for every frame named by a box or a
    points element, so a frame whose entry holds no keypoint still gets
    its row; when no frame of the window has an entry, table assembly
    reports failure, and a run that ends so has not succeeded and has not
    written the descriptor. *)
Theorem table_rows_follow_index (st : pipeline coord) (video_name : string) :
  (∀ f, f ∈ valid_frames st
        ↔ (frame_range st).1 ≤ f ≤ (frame_range st).2
          ∧ is_Some (annotations st !! f))
  ∧ NoDup (valid_frames st)
  ∧ StronglySorted Z.le (valid_frames st)
  ∧ data_rows st video_name = map (data_row st video_name) (valid_frames st)
  ∧ (∀ f, row_image (data_row st video_name f) = Some (frame_filename f))
  ∧ (∀ st0 doc,
       readable float_of_string doc = true →
       ∃ st1, parse st0 (Parsed doc) = Ret (true, st1)
              ∧ dom (annotations st1) = list_to_set (shape_frames doc))
  ∧ (∀ sc vf writable fs,
       video_file (video_info st) = Some vf →
       valid_frames st = [] →
       csv st sc writable fs = Ret (false, fs))
  ∧ (∀ (w : world coord image) st0 vp pn sc fs,
       final_state (run w st0 vp pn sc fs) = st →
       valid_frames st = [] →
       status (run w st0 vp pn sc fs) ≠ Ret true
       ∧ files (run w st0 vp pn sc fs) !! config_path = fs !! config_path).
Proof.
  destruct (valid_frames_spec st) as (Hmem & Hnodup & Hsorted).
  split; [| split; [done | split; [done | split; [done | split; [done |]]]]].
  - intros f. rewrite Hmem. by rewrite elem_of_dom.
  - split; [| split].
    + intros st0 doc Hr.
      destruct (parse_spec st0 doc Hr) as (st1 & Hp & _ & Hd & _). eauto.
    + intros sc vf writable fs. apply csv_no_frames.
    + intros w st0 vp pn sc fs <-. apply run_without_frames.
Qed.

(** ** Video probing *)

(** C6 (amended): probing fails exactly when the video cannot be opened
    or the backend raises; a video that opens and reports zero frames is
    probed successfully, with a recorded frame count of zero; and a run
    whose probe fails stops there with a failure. *)
Theorem probe_fails_iff_unopened (st : pipeline coord) (vp : string)
    (src : video_source coord image) :
  ((get_video_info st vp src).1 = false
   ↔ (∃ e, src = Raise e) ∨ (∃ cap, src = Ret cap ∧ cap_opened cap = false))
  ∧ (∀ cap, src = Ret cap → cap_opened cap = true →
       (get_video_info st vp src).1 = true
       ∧ total_frames (video_info (get_video_info st vp src).2)
         = Some (cap_frame_count cap))
  ∧ (∀ (w : world coord image) st0 pn sc fs,
       w_video w = src →
       parse st0 (w_xml w) = Ret (true, st) →
       (get_video_info st vp src).1 = false →
       status (run w st0 vp pn sc fs) = Ret false
       ∧ files (run w st0 vp pn sc fs) = fs).
Proof.
  split; [| split].
  - unfold get_video_info. destruct src as [cap | e]; simpl.
    + destruct (cap_opened cap) eqn:Hopen; simpl.
      * split; [done |]. intros [[e He] | (cap' & [= <-] & Hc)]; congruence.
      * split; [| done]. intros _. right. eauto.
    + split; [| done]. intros _. left. eauto.
  - intros cap -> Hopen. unfold get_video_info. by rewrite Hopen.
  - intros w st0 pn sc fs Hw Hp Hfail. unfold run_pipeline. rewrite Hp, Hw.
    by destruct (get_video_info st vp src) as [[] st2].
Qed.

(** ** Frame selection *)

Lemma range_ok_iff (max_frame start end_ : Z) :
  range_ok max_frame start end_ = true ↔ 0 ≤ start ≤ end_ ≤ max_frame.
Proof. unfold range_ok. rewrite !andb_true_iff, !Z.leb_le. lia. Qed.

Lemma range_loop_unfold (max_frame : Z) (inputs : list string) :
  range_loop int_of_string max_frame inputs
  = match inputs with
    | [] => Raise EOFError
    | l1 :: rest =>
        match int_of_string l1 with
        | None => range_loop int_of_string max_frame rest
        | Some start =>
            match rest with
            | [] => Raise EOFError
            | l2 :: rest' =>
                match int_of_string l2 with
                | None => range_loop int_of_string max_frame rest'
                | Some end_ =>
                    if range_ok max_frame start end_
                    then Ret ((start, end_), rest')
                    else range_loop int_of_string max_frame rest'
                end
            end
        end
    end.
Proof. by destruct inputs. Qed.

(** The prompt only ever lets a valid pair through. *)
Lemma range_loop_valid (max_frame : Z) (inputs : list string) :
  ∀ (start end_ : Z) (rest : list string),
    range_loop int_of_string max_frame inputs = Ret ((start, end_), rest) →
    0 ≤ start ≤ end_ ≤ max_frame.
Proof.
  remember (length inputs) as n eqn:Hn. revert inputs Hn.
  induction (lt_wf n) as [n _ IH]; intros inputs -> start end_ rest.
  rewrite range_loop_unfold.
  destruct inputs as [| l1 inputs]; [done |].
  destruct (int_of_string l1) as [s |].
  - destruct inputs as [| l2 inputs]; [done |].
    destruct (int_of_string l2) as [e |].
    + destruct (range_ok max_frame s e) eqn:Hok.
      * intros [= <- <- <-]. by apply range_ok_iff.
      * apply (IH (length inputs)); [simpl; lia | done].
    + apply (IH (length inputs)); [simpl; lia | done].
  - apply (IH (length inputs)); [simpl; lia | done].
Qed.

(** A valid pair typed at the prompt is taken as it is. *)
Lemma range_loop_accepts (max_frame start end_ : Z) (l1 l2 : string)
    (rest : list string) :
  int_of_string l1 = Some start →
  int_of_string l2 = Some end_ →
  range_loop int_of_string max_frame (l1 :: l2 :: rest)
  = if range_ok max_frame start end_ then Ret ((start, end_), rest)
    else range_loop int_of_string max_frame rest.
Proof. intros H1 H2. simpl. by rewrite H1, H2. Qed.

(** ** The converter and the summary *)


Lemma summary_unwritable (st : pipeline coord) (fs : gmap string (file image)) :
  create_dataset_summary st false fs = (Raise OSError, fs).
Proof. done. Qed.

(** C7 (amended): the summary is written last and nothing guards it:
    when a run that would otherwise succeed cannot write the summary
    file, [run_pipeline] ends with the exception instead of returning
    success, and the GUI run reports a failed conversion; the files
    written by the earlier stages stay as they are. *)
Theorem summary_failure_aborts (w : world coord image) (st : pipeline coord)
    (vp pn sc : string) (gi : gui_inputs) (fs : gmap string (file image)) :
  status (run (with_summary_writable true w) st vp pn sc fs) = Ret true →
  status (gui_run (with_summary_writable true w) gi fs) = Ret true →
  status (run (with_summary_writable false w) st vp pn sc fs) = Raise OSError
  ∧ status (gui_run (with_summary_writable false w) gi fs) = Ret false
  ∧ ∀ p, p ≠ summary_path →
         files (run (with_summary_writable false w) st vp pn sc fs) !! p
         = files (run (with_summary_writable true w) st vp pn sc fs) !! p.
Proof.
  unfold run_pipeline, run_conversion. simpl.
  destruct (parse st (w_xml w)) as [[[] st1] | e]; simpl; [| done..].
  destruct (get_video_info st1 vp (w_video w)) as [[] st2]; simpl; [| done].
  destruct (select st2 (w_inputs w)) as [[st3 rest] | e]; simpl; [| done].
  destruct (extract_frames path_stem st3 vp (w_video w) (w_imwrite w) fs)
    as [[[] ex] fs1]; simpl; [| done].
  destruct (csv st3 sc (w_csv_writable w) _) as [[[] fs2] | e]; simpl; [| done..].
  destruct (config st3 pn sc _ _ _ fs2) as [[[] fs3] | e]; simpl; [| done..].
  destruct (copy_video_to_project path_name vp _ fs3) as [[] fs4]; simpl; [| done].
  intros Hcli Hgui. split; [| split].
  - done.
  - clear Hcli. revert Hgui.
    destruct (parse init (w_xml w)) as [[[] g1] | e]; simpl; [| done..].
    destruct (get_video_info g1 _ (w_video w)) as [[] g2]; simpl; [| done].
    destruct (gui_set_range gi g2) as [g3 | e]; simpl; [| done].
    destruct (extract_frames path_stem g3 _ (w_video w) (w_imwrite w) fs)
      as [[[] gex] gfs1]; simpl; [| done].
    destruct (csv g3 _ (w_csv_writable w) _) as [[[] gfs2] | e]; simpl; [| done..].
    destruct (config g3 _ _ _ _ _ gfs2) as [[[] gfs3] | e]; simpl; [| done..].
    by destruct (copy_video_to_project path_name _ _ gfs3) as [[] gfs4].
  - intros p Hp. revert Hcli. unfold create_dataset_summary. simpl.
    destruct (fps (video_info st3)); [| done].
    destruct (video_file (video_info st3)); [| done].
    simpl. intros _. by rewrite lookup_insert_ne.
Qed.

(** ** Rows and images *)

(** Every row names an extracted image as long as decoding reaches every
    indexed frame of the window and the write of each of them returns
    [True]. *)
Lemma rows_have_images_when_decoded (st : pipeline coord)
    (cap : capture coord image) (s e : Z) (vp : string)
    (imwrite : string → image → imwrite_result) (fs : gmap string (file image)) :
  cap_opened cap = true →
  frame_range st = (s, e) →
  0 ≤ s →
  (extract_frames path_stem st vp (Ret cap) imwrite fs).1.1 = true →
  (∀ f, f ∈ valid_frames st →
        ∃ img, cap_stream cap !! Z.to_nat f = Some img
               ∧ imwrite (frames_dir (path_stem vp) +:+ frame_filename f) img
                 = ImwriteTrue) →
  ∀ row, row ∈ data_rows st (path_stem vp) →
    ∃ name img,
      row_image row = Some name
      ∧ (extract_frames path_stem st vp (Ret cap) imwrite fs).2
          !! (frames_dir (path_stem vp) +:+ name)
        = Some (FImage img).
Proof.
  intros Hopen Hrange Hs Hok Hreach row Hrow.
  unfold data_rows in Hrow. apply list_elem_of_In, in_map_iff in Hrow as (f & <- & Hf).
  apply list_elem_of_In in Hf. destruct (Hreach f Hf) as (img & Himg & Hwrite).
  exists (frame_filename f), img. split; [done |].
  apply (proj1 (valid_frames_spec st)) in Hf as [Hwin _]. rewrite Hrange in Hwin.
  simpl in Hwin.
  unfold extract_frames in *. rewrite Hopen, Hrange in *. simpl in *.
  pose proof (extract_loop_landed imwrite (frames_dir (path_stem vp)) s e
                (cap_stream cap) 0 (Extraction 0 0) fs (Z.to_nat f) img Hok Himg) as Hl.
  rewrite Z.add_0_l, Z2Nat.id in Hl by lia. apply Hl; [lia | done].
Qed.

(** ** What a successful run leaves behind *)

Lemma get_video_info_true (st st2 : pipeline coord) (vp : string)
    (src : video_source coord image) :
  get_video_info st vp src = (true, st2) →
  video_file (video_info st2) = Some vp ∧ is_Some (fps (video_info st2)).
Proof.
  unfold get_video_info. destruct src as [cap | e]; [| done].
  destruct (cap_opened cap); [| done]. intros [= <-]. simpl. eauto.
Qed.

Lemma csv_path_head (vn sc : string) :
  ∃ tail, csv_path vn sc = String "l" tail.
Proof. unfold csv_path, frames_dir. eexists. vm_compute. reflexivity. Qed.

Lemma run_success (w : world coord image) (st : pipeline coord)
    (vp pn sc : string) (fs : gmap string (file image)) :
  status (run w st vp pn sc fs) = Ret true →
  ∃ st1 st2 rest,
    parse st (w_xml w) = Ret (true, st1)
    ∧ get_video_info st1 vp (w_video w) = (true, st2)
    ∧ select st2 (w_inputs w) = Ret (final_state (run w st vp pn sc fs), rest)
    ∧ files (run w st vp pn sc fs) !! csv_path (path_stem vp) sc
      = Some (FText (csv_text float_repr
                       (scorer_row (final_state (run w st vp pn sc fs)) sc
                          :: bodyparts_row (final_state (run w st vp pn sc fs))
                          :: coords_row (final_state (run w st vp pn sc fs))
                          :: data_rows (final_state (run w st vp pn sc fs))
                                       (path_stem vp))))
    ∧ files (run w st vp pn sc fs) !! config_path
      = Some (FText (config_text (final_state (run w st vp pn sc fs)) pn sc
                       (w_today w) (w_project_path w) (path_name vp))).
Proof.
  unfold run_pipeline.
  destruct (parse st (w_xml w)) as [[[] st1] | e]; simpl; [| done..].
  destruct (get_video_info st1 vp (w_video w)) as [[] st2] eqn:Hinfo; simpl; [| done].
  destruct (select st2 (w_inputs w)) as [[st3 rest] | e] eqn:Hsel; simpl; [| done].
  destruct (extract_frames path_stem st3 vp (w_video w) (w_imwrite w) fs)
    as [[[] ex] fs1]; simpl; [| done].
  apply get_video_info_true in Hinfo as Hvf. destruct Hvf as [Hvf _].
  apply select_keeps in Hsel as Hkeep. destruct Hkeep as (_ & _ & Hvi).
  rewrite <- Hvi in Hvf.
  unfold create_deeplabcut_csv, create_deeplabcut_config, copy_video_to_project,
    create_dataset_summary.
  rewrite Hvf. destruct (valid_frames st3) eqn:Hframes; [done |].
  destruct (w_csv_writable w); simpl; [| done].
  destruct (w_config_writable w); simpl; [| done].
  destruct (w_copy_ok w); simpl; [| done].
  destruct (w_summary_writable w); simpl; [| done].
  destruct (fps (video_info st3)); simpl; [| done].
  intros _. exists st1, st2, rest. split; [done |]. split; [done |]. split; [done |].
  destruct (csv_path_head (path_stem vp) sc) as [tail Hhead].
  split.
  - rewrite lookup_insert_ne by (rewrite Hhead; discriminate).
    rewrite lookup_insert_ne by (rewrite Hhead; vm_compute; discriminate).
    rewrite lookup_insert_ne by (rewrite Hhead; discriminate).
    by rewrite lookup_insert_eq.
  - rewrite lookup_insert_ne by discriminate.
    rewrite lookup_insert_ne by (vm_compute; discriminate).
    by rewrite lookup_insert_eq.
Qed.

(** C9 (amended): two runs on the same export, video, output directory,
    project name and scorer that receive the same answers at the
    frame-selection prompts leave the same table; they leave the same
    descriptor when, in addition, they take place on the same day of the
    year and resolve the output directory to the same absolute path. *)
Theorem rerun_same_table (w1 w2 : world coord image) (vp pn sc : string)
    (fs : gmap string (file image)) :
  w_xml w1 = w_xml w2 →
  w_video w1 = w_video w2 →
  w_inputs w1 = w_inputs w2 →
  status (run w1 init vp pn sc fs) = Ret true →
  status (run w2 init vp pn sc (files (run w1 init vp pn sc fs))) = Ret true →
  is_Some (files (run w1 init vp pn sc fs) !! csv_path (path_stem vp) sc)
  ∧ is_Some (files (run w1 init vp pn sc fs) !! config_path)
  ∧ files (run w2 init vp pn sc (files (run w1 init vp pn sc fs)))
      !! csv_path (path_stem vp) sc
    = files (run w1 init vp pn sc fs) !! csv_path (path_stem vp) sc
  ∧ (w_today w1 = w_today w2 →
     w_project_path w1 = w_project_path w2 →
     files (run w2 init vp pn sc (files (run w1 init vp pn sc fs))) !! config_path
     = files (run w1 init vp pn sc fs) !! config_path).
Proof.
  intros Hxml Hvideo Hinputs H1 H2.
  apply run_success in H1 as (a1 & a2 & arest & Hp1 & Hi1 & Hs1 & Hcsv1 & Hcfg1).
  apply run_success in H2 as (b1 & b2 & brest & Hp2 & Hi2 & Hs2 & Hcsv2 & Hcfg2).
  rewrite <- Hxml in Hp2. rewrite Hp1 in Hp2. injection Hp2 as <-.
  rewrite <- Hvideo in Hi2. rewrite Hi1 in Hi2. injection Hi2 as <-.
  rewrite <- Hinputs in Hs2. rewrite Hs1 in Hs2. injection Hs2 as Hst _.
  split; [by rewrite Hcsv1 |]. split; [by rewrite Hcfg1 |]. split.
  - by rewrite Hcsv2, Hcsv1, Hst.
  - intros Hday Hpath. by rewrite Hcfg2, Hcfg1, Hst, Hday, Hpath.
Qed.

End Properties.

(** * Concrete runs *)

(** C4 at an output tree in which [frame_0001.png] cannot be written:
    the video has three frames and the window is [0, 2].  [cv2.imwrite]
    returns [False] for frame 1 and the loop goes on: extraction returns
    [True] and counts three extracted frames, and the tree holds
    [frame_0000.png] and [frame_0002.png] only.  The whole run, on an
    export that annotates frame 2, returns [True] as well. *)
Theorem write_failure_goes_unnoticed :
  let imwrite := Sample.imwrite_except "labeled-data/bee/frame_0001.png" in
  let r := extract_frames Sample.path_stem (set_selection (@init Q) Range (0, 2))
             "/videos/bee.mp4" (Sample.video 3 3) imwrite ∅ in
  r.1 = (true, Extraction 3 3)
  ∧ r.2 !! "labeled-data/bee/frame_0000.png" = Some (FImage "image 0")
  ∧ r.2 !! "labeled-data/bee/frame_0001.png" = None
  ∧ r.2 !! "labeled-data/bee/frame_0002.png" = Some (FImage "image 2")
  ∧ length (map_to_list r.2) = 2%nat
  ∧ status (Sample.run (with_imwrite imwrite (Sample.early_world 3 3 ["1"])) init
              "/videos/bee.mp4" "BeePoseEstimation" "manual" ∅) = Ret true.
Proof. vm_compute. repeat split. Qed.

Lemma vocabulary_sorted_union_witness :
  ∃ st' : pipeline Q,
    Sample.parse init (Parsed Sample.hive_doc) = Ret (true, st')
    ∧ Sorted String.le (bodyparts st')
    ∧ "Queen_center" ∈ bodyparts st'
    ∧ "Worker" ∈ bodyparts st'.
Proof.
  destruct (@vocabulary_sorted_union Q string Sample.float_of_string Sample.midpoint
              Sample.float_repr Sample.int_of_string Sample.strip
              Sample.path_stem Sample.path_name init Sample.hive_doc)
    as (st' & Hparse & Hsorted & _ & Hnames & _); [reflexivity |].
  exists st'. split; [exact Hparse |]. split; [exact Hsorted |].
  split; apply Hnames; apply list_elem_of_In; vm_compute; tauto.
Defined.

Lemma later_shape_overwrites_witness :
  ∃ st' : pipeline Q,
    Sample.parse init (Parsed Sample.clash_doc) = Ret (true, st')
    ∧ keypoint (annotations st') 5 "Bee" = Some (2%Q, 2%Q).
Proof.
  destruct (@later_shape_overwrites Q Sample.float_of_string Sample.midpoint
              init Sample.clash_doc)
    as (st' & Hparse & _ & Hlast); [reflexivity |].
  exists st'. split; [exact Hparse |].
  apply (Hlast [(5, "Bee", (1%Q, 1%Q))] (5, "Bee", (2%Q, 2%Q)) []).
  - reflexivity.
  - constructor.
Defined.

(** C1 at a video that stops decoding early: the container announces ten
    frames, three decode, and the export annotates frame 5.  The run
    succeeds, the table has a row for [frame_0005.png], and extraction
    wrote [frame_0000.png] to [frame_0002.png] only. *)
Theorem row_without_image :
  let r := Sample.run (Sample.bee_world 10 3 ["1"]) init "/videos/bee.mp4"
             "BeePoseEstimation" "manual" ∅ in
  status r = Ret true
  ∧ frame_range (final_state r) = (0, 9)
  ∧ data_rows (final_state r) "bee"
    = [[CStr "labeled-data"; CStr "bee"; CStr "frame_0005.png";
        CFloat 12%Q; CFloat 8%Q]]
  ∧ (extract_frames Sample.path_stem (final_state r) "/videos/bee.mp4"
        (Sample.video 10 3) (λ _ _, ImwriteTrue) ∅).1
    = (true, Extraction 3 3)
  ∧ filter (λ p, bool_decide (is_Some (files r !! ("labeled-data/bee/" +:+ p))))
           (frame_filename <$> seqZ 0 10)
    = ["frame_0000.png"; "frame_0001.png"; "frame_0002.png"]
  ∧ is_Some (files r !! "labeled-data/bee/CollectedData_manual.csv")
  ∧ files r !! "labeled-data/bee/frame_0005.png" = None.
Proof.
  vm_compute. repeat split; try reflexivity. eexists; reflexivity.
Qed.

(** The claim C2 fails on an export with a points element whose [points]
    attribute is empty: frame 3 holds no keypoint and still gets a row,
    filled with missing markers. *)
Lemma zero_keypoint_frame_gets_row :
  ∃ st : pipeline Q,
    Sample.parse init (Parsed Sample.gap_doc) = Ret (true, st)
    ∧ annotations st !! 3 = Some ∅
    ∧ valid_frames (set_selection st Full (0, 9)) = [3; 5]
    ∧ data_rows (set_selection st Full (0, 9)) "bee"
      = [[CStr "labeled-data"; CStr "bee"; CStr "frame_0003.png"; CNan; CNan];
         [CStr "labeled-data"; CStr "bee"; CStr "frame_0005.png";
          CFloat 12%Q; CFloat 8%Q]].
Proof. eexists. split; [reflexivity |]. vm_compute. repeat split. Qed.

(** C3 through the GUI: the range [2, 4] on a video of three frames passes
    validation, is installed as the frame window, and the whole conversion
    runs with it, although [0 <= 2 <= 4 <= 2] is false; the prompt of the
    command line turns the same pair down. *)
Theorem gui_accepts_range_beyond_video :
  validate_inputs (Sample.form 2 4) = true
  ∧ range_ok (3 - 1) 2 4 = false
  ∧ (∃ r, Sample.gui_start (Sample.early_world 3 3 []) (Sample.form 2 4) ∅ = Some r
          ∧ status r = Ret true
          ∧ total_frames (video_info (final_state r)) = Some 3
          ∧ frame_range (final_state r) = (2, 4)
          ∧ is_Some (files r !! "labeled-data/bee/frame_0002.png")
          ∧ is_Some (files r !! "labeled-data/bee/CollectedData_manual.csv"))
  ∧ Sample.select (get_video_info (@init Q) "/videos/bee.mp4" (Sample.video 3 3)).2
                  ["2"; "2"; "4"] = Raise EOFError.
Proof.
  split; [reflexivity |]. split; [reflexivity |]. split; [| reflexivity].
  eexists. split; [reflexivity |]. vm_compute.
  repeat split; try reflexivity; eexists; reflexivity.
Qed.

(** The claim C6 fails on a video that opens and reports zero frames:
    probing succeeds, the run goes on to select the window [0, -1] and
    stops only at table assembly. *)
Lemma zero_frame_video_probes :
  (get_video_info (@init Q) "/videos/bee.mp4" (Sample.video 0 0)).1 = true
  ∧ let r := Sample.run (Sample.bee_world 0 0 ["1"]) init "/videos/bee.mp4"
               "BeePoseEstimation" "manual" ∅ in
    status r = Ret false
    ∧ total_frames (video_info (final_state r)) = Some 0
    ∧ frame_range (final_state r) = (0, -1).
Proof. vm_compute. repeat split. Qed.

(** The claim C7 fails when the summary file cannot be written: the run
    that returns [True] otherwise ends with the exception. *)
Lemma summary_failure_is_fatal :
  status (Sample.run (Sample.bee_world 10 10 ["1"]) init "/videos/bee.mp4"
            "BeePoseEstimation" "manual" ∅) = Ret true
  ∧ status (Sample.run (with_summary_writable false (Sample.bee_world 10 10 ["1"]))
              init "/videos/bee.mp4" "BeePoseEstimation" "manual" ∅)
    = Raise OSError
  ∧ status (Sample.gui_run (with_summary_writable false (Sample.bee_world 10 10 []))
              (Sample.form 0 9) ∅)
    = Ret false.
Proof. vm_compute. repeat split. Qed.

Lemma summary_failure_aborts_witness :
  status (Sample.run (with_summary_writable false (Sample.bee_world 10 10 ["1"]))
            init "/videos/bee.mp4" "BeePoseEstimation" "manual" ∅)
  = Raise OSError
  ∧ status (Sample.gui_run (with_summary_writable false (Sample.bee_world 10 10 ["1"]))
              (Sample.form 0 9) ∅)
    = Ret false.
Proof.
  destruct (@summary_failure_aborts Q string Sample.float_of_string Sample.midpoint
              Sample.float_repr Sample.int_of_string Sample.strip
              Sample.path_stem Sample.path_name
              (Sample.bee_world 10 10 ["1"]) init "/videos/bee.mp4"
              "BeePoseEstimation" "manual" (Sample.form 0 9) ∅)
    as (Hcli & Hgui & _); [vm_compute; reflexivity | vm_compute; reflexivity |].
  split; [exact Hcli | exact Hgui].
Defined.

(** C8 at a converter that fails whenever it is called, without
    [h5_converter.py] next to the pipeline script: the inline child
    catches the exception of its conversion, prints the failure and ends
    with return code 0; [generate_h5_file] takes that for a conversion and
    logs the success line, with no warning.  With [h5_converter.py] in
    place the failure of the script is printed and the success line
    follows.  The converter script itself ends with status 1 when its
    conversion fails. *)
Theorem inline_failure_logged_as_success :
  inline_child true false = (0, [ChildFailed])
  ∧ generate_h5_file Sample.failing_converter = (true, [H5Generated])
  ∧ generate_h5_file Sample.failing_converter_with_script
    = (true, [H5ConverterOutput; H5Generated])
  ∧ h5_main ["h5_converter.py"; "config.yaml"; "manual"] (λ _, true)
            (Dlc ImportOk false false false) = 1.
Proof. repeat split. Qed.

(** The claim C9 fails across midnight: the two runs differ in nothing but
    the day, and the descriptors differ. *)
Lemma rerun_next_day_changes_descriptor :
  let w := Sample.bee_world 10 10 ["1"] in
  let r1 := Sample.run w init "/videos/bee.mp4" "BeePoseEstimation" "manual" ∅ in
  let r2 := Sample.run (with_today "Sep17" w) init "/videos/bee.mp4"
              "BeePoseEstimation" "manual" (files r1) in
  status r1 = Ret true
  ∧ status r2 = Ret true
  ∧ files r2 !! config_path ≠ files r1 !! config_path.
Proof.
  vm_compute. split; [reflexivity |]. split; [reflexivity |]. discriminate.
Qed.

Lemma rerun_same_table_witness :
  let w := Sample.bee_world 10 10 ["1"] in
  let r1 := Sample.run w init "/videos/bee.mp4" "BeePoseEstimation" "manual" ∅ in
  let r2 := Sample.run (with_today "Sep17" w) init "/videos/bee.mp4"
              "BeePoseEstimation" "manual" (files r1) in
  is_Some (files r1 !! csv_path (Sample.path_stem "/videos/bee.mp4") "manual")
  ∧ files r2 !! csv_path (Sample.path_stem "/videos/bee.mp4") "manual"
    = files r1 !! csv_path (Sample.path_stem "/videos/bee.mp4") "manual".
Proof.
  intros w r1 r2.
  destruct (@rerun_same_table Q string Sample.float_of_string Sample.midpoint
              Sample.float_repr Sample.int_of_string Sample.strip
              Sample.path_stem Sample.path_name
              w (with_today "Sep17" w) "/videos/bee.mp4" "BeePoseEstimation"
              "manual" ∅)
    as (Hsome & _ & Hcsv & _);
    [reflexivity | reflexivity | reflexivity
     | vm_compute; reflexivity | vm_compute; reflexivity |].
  split; [exact Hsome | exact Hcsv].
Defined.

(** * Further properties of the stages *)

Section StageProperties.

Context {coord image : Type}.
Variable float_of_string : string → option coord.
Variable midpoint : coord → coord → coord.
Variable float_repr : coord → string.
Variable int_of_string : string → option Z.
Variable strip : string → string.
Variable path_stem : string → string.
Variable path_name : string → string.

Local Abbreviation parse := (parse_cvat_xml float_of_string midpoint).
Local Abbreviation select := (interactive_frame_selection int_of_string strip).
Local Abbreviation csv := (create_deeplabcut_csv (image := image) float_repr path_stem).
Local Abbreviation config := (create_deeplabcut_config (image := image) path_name).
Local Abbreviation run := (run_pipeline (image := image) float_of_string midpoint
                             float_repr int_of_string strip path_stem path_name).
Local Abbreviation gui_run := (run_conversion (image := image) float_of_string midpoint
                                 float_repr path_stem path_name).

(** ** Extraction: counts and files *)

(** X1: [extracted_count] counts the calls of [cv2.imwrite], not the
    files.  For an opened video and a window [0 <= s <= e], extraction
    returns [True] exactly when no write of a decodable frame of the
    window raises; then decoding has stopped after
    [min(decodable frames, e + 1)] frames and the count is that number
    minus [s], whatever the writes returned; a frame whose write returned
    [True] is in the tree under [frame_<i>.png], holding that frame, and a
    frame whose write returned [False] leaves its path as it was.
    However extraction ends, the path of an index outside the window or
    beyond the decodable frames, and every path outside the directory of
    the frames, keeps its content. *)
Theorem extraction_counts_write_calls (st : pipeline coord)
    (cap : capture coord image) (vp : string)
    (imwrite : string → image → imwrite_result)
    (fs : gmap string (file image)) (s e : Z) :
  cap_opened cap = true →
  frame_range st = (s, e) →
  0 ≤ s ≤ e →
  let r := extract_frames path_stem st vp (Ret cap) imwrite fs in
  let path := λ i : Z, frames_dir (path_stem vp) +:+ frame_filename i in
  (r.1.1 = true
   ↔ ∀ (i : nat) (img : image),
       cap_stream cap !! i = Some img → s ≤ Z.of_nat i ≤ e →
       imwrite (path (Z.of_nat i)) img ≠ ImwriteRaises)
  ∧ (r.1.1 = true →
     decoded r.1.2 = Z.to_nat (Z.min (Z.of_nat (length (cap_stream cap))) (e + 1))
     ∧ extracted_count r.1.2
       = Z.to_nat (Z.min (Z.of_nat (length (cap_stream cap))) (e + 1) - s)
     ∧ (extracted_count r.1.2 ≤ decoded r.1.2)%nat
     ∧ ∀ (i : nat) (img : image),
         cap_stream cap !! i = Some img → s ≤ Z.of_nat i ≤ e →
         (imwrite (path (Z.of_nat i)) img = ImwriteTrue →
          r.2 !! path (Z.of_nat i) = Some (FImage img))
         ∧ (imwrite (path (Z.of_nat i)) img = ImwriteFalse →
            r.2 !! path (Z.of_nat i) = fs !! path (Z.of_nat i)))
  ∧ (∀ i : Z, ¬ (s ≤ i ≤ e ∧ i < Z.of_nat (length (cap_stream cap))) →
              r.2 !! path i = fs !! path i)
  ∧ (∀ p : string, (∀ name, p ≠ frames_dir (path_stem vp) +:+ name) →
                   r.2 !! p = fs !! p).
Proof.
  intros Hopen Hrange Hwin r path. subst r path. unfold extract_frames.
  rewrite Hopen, Hrange. simpl.
  split; [| split; [| split]].
  - rewrite extract_loop_ok. by setoid_rewrite Z.add_0_l.
  - intros Hok.
    destruct (extract_loop_counters imwrite (frames_dir (path_stem vp)) s e
                (cap_stream cap) 0 (Extraction 0 0) fs ltac:(lia) Hok) as [Hd Hc].
    rewrite Hd, Hc. simpl.
    split; [f_equal; lia |]. split; [f_equal; lia |]. split; [lia |].
    intros i img Hi Hw. split; intros Hwrite.
    + pose proof (extract_loop_landed imwrite (frames_dir (path_stem vp)) s e
                    (cap_stream cap) 0 (Extraction 0 0) fs i img Hok Hi) as Hl.
      rewrite Z.add_0_l in Hl. by apply Hl.
    + apply extract_loop_other. intros j img' Hj _ Hwrite' Heq.
      apply frame_path_inj in Heq. rewrite Z.add_0_l in *.
      apply Nat2Z.inj in Heq as ->. congruence.
  - intros i Hi. apply extract_loop_other. intros j img' Hj Hw _ Heq.
    apply frame_path_inj in Heq. apply lookup_lt_Some in Hj. lia.
  - intros p Hp. apply extract_loop_other. intros j img' _ _ _. apply Hp.
Qed.

(** ** The window chosen at the prompt *)

(** X2: whatever is typed, a window that [interactive_frame_selection]
    returns lies inside the probed video: the whole video [0, total - 1]
    for choice 1, and bounds with [0 <= start <= end <= total - 1] for
    choice 2. *)
Theorem prompt_window_within_video (inputs : list string) :
  ∀ (st st' : pipeline coord) (rest : list string),
    select st inputs = Ret (st', rest) →
    ∃ total : Z,
      total_frames (video_info st) = Some total
      ∧ ((frame_selection st' = Full ∧ frame_range st' = (0, total - 1))
         ∨ (frame_selection st' = Range
            ∧ 0 ≤ (frame_range st').1 ≤ (frame_range st').2 ≤ total - 1)).
Proof.
  induction inputs as [| choice inputs IH]; intros st st' rest; simpl; [done |].
  repeat case_decide.
  - destruct (total_frames (video_info st)) as [total |]; [| done].
    intros [= <- _]. exists total. split; [done |]. by left.
  - destruct (total_frames (video_info st)) as [total |]; [| done].
    destruct (range_loop int_of_string (total - 1) inputs) as [[[a b] rest'] |] eqn:Hloop;
      [| done].
    simpl. intros [= <- _]. exists total. split; [done |]. right. simpl.
    split; [done |]. by apply (range_loop_valid int_of_string _ _ _ _ _ Hloop).
  - apply IH.
Qed.

(** ** The shape of the table *)

Lemma length_concat_pairs {A B} (g : A → list B) (l : list A) :
  (∀ x, length (g x) = 2%nat) → length (concat (map g l)) = (2 * length l)%nat.
Proof.
  intros Hg. induction l as [| x l IH]; [done |].
  simpl. rewrite length_app, Hg, IH. lia.
Qed.

Lemma lookup_concat_pairs {A B} (g : A → list B) (l : list A) (k : nat) (x : A) :
  (∀ y, length (g y) = 2%nat) →
  l !! k = Some x →
  concat (map g l) !! (2 * k)%nat = g x !! 0%nat
  ∧ concat (map g l) !! (2 * k + 1)%nat = g x !! 1%nat.
Proof.
  intros Hg. revert k. induction l as [| y l IH]; intros k Hk; [done |].
  destruct k as [| k]; simpl in *.
  - injection Hk as ->. pose proof (Hg x) as Hx.
    destruct (g x) as [| a [| b [| ? ?]]]; simpl in *; done.
  - destruct (IH k Hk) as [H0 H1]. pose proof (Hg y) as Hy.
    destruct (g y) as [| a [| b [| ? ?]]]; simpl in *; try done.
    replace (k + S (k + 0))%nat with (S (2 * k)) by lia.
    replace (k + S (k + 0) + 1)%nat with (S (2 * k + 1)) by lia.
    simpl. done.
Qed.

Lemma replicate_as_map {A B} (x : B) (l : list A) :
  replicate (length l) x = map (λ _, x) l.
Proof. induction l as [| a l IH]; [done |]. simpl. by rewrite IH. Qed.

Lemma keypoint_cells_length (fa : gmap string (coord * coord)) (bp : string) :
  length (keypoint_cells fa bp) = 2%nat.
Proof. unfold keypoint_cells. by destruct (fa !! bp) as [[] |]. Qed.

(** X3: the table is rectangular: the three header rows and every data
    row have [3 + 2 * len(bodyparts)] cells. *)
Theorem table_is_rectangular (st : pipeline coord) (scorer video_name : string)
    (row : list (cell coord)) :
  row ∈ scorer_row st scorer :: bodyparts_row st :: coords_row st
          :: data_rows st video_name →
  length row = (3 + 2 * length (bodyparts st))%nat.
Proof.
  rewrite !elem_of_cons.
  intros [-> | [-> | [-> | Hrow]]].
  - unfold scorer_row. rewrite length_app, length_replicate. simpl. lia.
  - unfold bodyparts_row. rewrite length_app, length_concat_pairs by done. done.
  - unfold coords_row. rewrite length_app, replicate_as_map, length_concat_pairs by done.
    done.
  - unfold data_rows in Hrow. apply list_elem_of_In, in_map_iff in Hrow as (f & <- & _).
    unfold data_row. rewrite length_app, length_concat_pairs; [done |].
    intros bp. apply keypoint_cells_length.
Qed.

(** X4: column alignment: for the [k]-th name of the vocabulary, cells
    [3 + 2k] and [3 + 2k + 1] of the three header rows hold the scorer,
    the name and the axis labels x and y, and the same cells of the data
    row of frame [f] hold that keypoint's coordinates when the frame has
    it and two missing markers, never zeros, when it has not. *)
Theorem table_columns_aligned (st : pipeline coord) (scorer video_name : string)
    (k : nat) (bp : string) (f : Z) :
  bodyparts st !! k = Some bp →
  scorer_row st scorer !! (3 + 2 * k)%nat = Some (CStr scorer)
  ∧ scorer_row st scorer !! (3 + 2 * k + 1)%nat = Some (CStr scorer)
  ∧ bodyparts_row st !! (3 + 2 * k)%nat = Some (CStr bp)
  ∧ bodyparts_row st !! (3 + 2 * k + 1)%nat = Some (CStr bp)
  ∧ coords_row st !! (3 + 2 * k)%nat = Some (CStr "x")
  ∧ coords_row st !! (3 + 2 * k + 1)%nat = Some (CStr "y")
  ∧ match keypoint (annotations st) f bp with
    | Some (x, y) =>
        data_row st video_name f !! (3 + 2 * k)%nat = Some (CFloat x)
        ∧ data_row st video_name f !! (3 + 2 * k + 1)%nat = Some (CFloat y)
    | None =>
        data_row st video_name f !! (3 + 2 * k)%nat = Some CNan
        ∧ data_row st video_name f !! (3 + 2 * k + 1)%nat = Some CNan
    end.
Proof.
  intros Hk. pose proof (lookup_lt_Some _ _ _ Hk) as Hlt.
  assert (∀ {A} (h : list A) (t : list A) (i : nat),
            length h = 3%nat → (h ++ t) !! (3 + i)%nat = t !! i) as Hskip.
  { intros A h t i Hh. rewrite lookup_app_r by lia. f_equal. lia. }
  split; [| split]; [| | split; [| split; [| split; [| split]]]].
  - unfold scorer_row. rewrite Hskip by done. apply lookup_replicate_2. lia.
  - unfold scorer_row. rewrite <- Nat.add_assoc, Hskip by done.
    apply lookup_replicate_2. lia.
  - unfold bodyparts_row. rewrite Hskip by done.
    by rewrite (proj1 (lookup_concat_pairs (λ b, [CStr b; CStr b]) _ k bp
                         (λ _, eq_refl) Hk)).
  - unfold bodyparts_row. rewrite <- Nat.add_assoc, Hskip by done.
    by rewrite (proj2 (lookup_concat_pairs (λ b, [CStr b; CStr b]) _ k bp
                         (λ _, eq_refl) Hk)).
  - unfold coords_row. rewrite Hskip by done. rewrite replicate_as_map.
    by rewrite (proj1 (lookup_concat_pairs (λ _, [CStr "x"; CStr "y"]) _ k bp
                         (λ _, eq_refl) Hk)).
  - unfold coords_row. rewrite <- Nat.add_assoc, Hskip by done.
    rewrite replicate_as_map.
    by rewrite (proj2 (lookup_concat_pairs (λ _, [CStr "x"; CStr "y"]) _ k bp
                         (λ _, eq_refl) Hk)).
  - assert (keypoint (annotations st) f bp
            = default ∅ (annotations st !! f) !! bp) as Hkp.
    { unfold keypoint. by destruct (annotations st !! f). }
    pose proof (lookup_concat_pairs
                  (keypoint_cells (default ∅ (annotations st !! f)))
                  (bodyparts st) k bp
                  (keypoint_cells_length _) Hk) as [H0 H1].
    unfold data_row. rewrite Hkp.
    rewrite <- !Nat.add_assoc, !Hskip by done. rewrite H0, H1.
    unfold keypoint_cells.
    by destruct (default ∅ (annotations st !! f) !! bp) as [[x y] |].
Qed.

(** ** Vocabulary and annotation index agree *)

Lemma latest_is_Some (f : Z) (n : string) (cs : list (Z * string * (coord * coord))) :
  is_Some (latest f n cs) ↔ ∃ c, c ∈ cs ∧ c.1 = (f, n).
Proof.
  induction cs as [| c cs IH]; simpl.
  - split; [by intros [? ?] | by intros (? & ?%elem_of_nil & _)].
  - destruct (latest f n cs) as [xy |] eqn:Hl.
    + split; [| eauto]. intros _.
      destruct (proj1 IH) as (c' & Hin & Hc'); [eauto |].
      exists c'. split; [by right | done].
    + case_decide as Hc.
      * split; [| eauto]. intros _. exists c. split; [by left | done].
      * split; [by intros [? ?] |].
        intros (c' & [-> | Hin]%elem_of_cons & Hc'); [done |].
        destruct (proj2 IH) as [? ?]; [eauto | done].
Qed.

(** X5: after parsing, every keypoint name used in a frame annotation is
    in the vocabulary, and every name of the vocabulary is used in at
    least one frame annotation of the export, whatever frame window is
    chosen afterwards. *)
Theorem vocabulary_covers_annotations (st : pipeline coord) (doc : document coord) :
  readable float_of_string doc = true →
  ∃ st' : pipeline coord,
    parse st (Parsed doc) = Ret (true, st')
    ∧ (∀ f n, is_Some (keypoint (annotations st') f n) → n ∈ bodyparts st')
    ∧ (∀ n, n ∈ bodyparts st' → ∃ f, is_Some (keypoint (annotations st') f n)).
Proof.
  intros Hr.
  destruct (parse_spec float_of_string midpoint st doc Hr)
    as (st' & Hp & Hb & _ & Hk & _).
  exists st'. split; [done |].
  destruct (sorted_names_spec
              (list_to_set ((λ c, c.1.2)
                              <$> contributions float_of_string midpoint doc)))
    as (_ & _ & Hmem).
  rewrite Hb. split.
  - intros f n Hsome. rewrite Hk in Hsome.
    apply latest_is_Some in Hsome as (c & Hin & Hc).
    apply Hmem, elem_of_list_to_set, list_elem_of_fmap. exists c.
    split; [by rewrite Hc | done].
  - intros n Hn. apply Hmem, elem_of_list_to_set, list_elem_of_fmap in Hn
      as (c & -> & Hin).
    exists c.1.1. rewrite Hk. apply latest_is_Some. exists c.
    split; [done | by destruct c as [[] ?]].
Qed.

(** ** The [points] attribute *)

Lemma rev_app_rev_app (a b c : string) :
  String.rev_app (String.rev_app a b) c = String.rev_app b (a +:+ c).
Proof.
  revert b c. induction a as [| x a IH]; intros b c; simpl; [done |].
  rewrite IH. done.
Qed.

Lemma rev_rev_app (a : string) : String.rev (String.rev_app a "") = a.
Proof.
  unfold String.rev. rewrite rev_app_rev_app. simpl.
  induction a as [| x a IH]; [done |]. unfold String.app. simpl. f_equal.
  exact IH.
Qed.

(** A field without a separator, followed by a separator, is split off. *)
Lemma split_go_field (sep : ascii) (c0 : string) :
  ∀ (cur s : string),
    Str.contains sep c0 = false →
    Str.split_go sep cur (c0 +:+ String sep s)
    = String.rev (String.rev_app c0 cur) :: Str.split_go sep "" s.
Proof.
  induction c0 as [| x c0 IH]; intros cur s Hc.
  - change ("" +:+ String sep s) with (String sep s). simpl.
    by rewrite Ascii.eqb_refl.
  - change (String x c0 +:+ String sep s) with (String x (c0 +:+ String sep s)).
    simpl in *. apply orb_false_iff in Hc as [Hx Hc].
    rewrite Ascii.eqb_sym, Hx. by rewrite IH.
Qed.

Lemma split_go_last (sep : ascii) (c0 : string) :
  ∀ cur : string,
    Str.contains sep c0 = false →
    Str.split_go sep cur c0 = [String.rev (String.rev_app c0 cur)].
Proof.
  induction c0 as [| x c0 IH]; intros cur Hc; [done |].
  simpl in *. apply orb_false_iff in Hc as [Hx Hc].
  rewrite Ascii.eqb_sym, Hx. by rewrite IH.
Qed.

Lemma split_field (c0 s : string) :
  Str.contains "," c0 = false →
  Str.split "," (c0 +:+ String "," s) = c0 :: Str.split "," s.
Proof.
  intros Hc. unfold Str.split. rewrite split_go_field by done.
  by rewrite rev_rev_app.
Qed.

Lemma split_single (c0 : string) :
  Str.contains "," c0 = false → Str.split "," c0 = [c0].
Proof.
  intros Hc. unfold Str.split. rewrite split_go_last by done.
  by rewrite rev_rev_app.
Qed.

(** X6: only the first two components of a [points] attribute count:
    whatever follows a second comma is ignored, readable or not; and an
    attribute with a single component yields no keypoint and no error,
    even when that component is not a number. *)
Theorem points_first_two_components (c0 c1 tail : string) :
  Str.contains "," c0 = false →
  Str.contains "," c1 = false →
  points_coords float_of_string (Some (c0 +:+ String "," (c1 +:+ String "," tail)))
  = match float_of_string c0, float_of_string c1 with
    | Some x, Some y => Ret (Some (x, y))
    | _, _ => Raise ValueError
    end
  ∧ points_coords float_of_string (Some (c0 +:+ String "," c1))
    = points_coords float_of_string (Some (c0 +:+ String "," (c1 +:+ String "," tail)))
  ∧ points_coords float_of_string (Some c0) = Ret None.
Proof.
  intros H0 H1.
  assert (∀ rest, points_coords float_of_string (Some (c0 +:+ String "," rest))
                  = match Str.split "," (c0 +:+ String "," rest) with
                    | a :: b :: _ =>
                        match float_of_string a with
                        | None => Raise ValueError
                        | Some x =>
                            match float_of_string b with
                            | None => Raise ValueError
                            | Some y => Ret (Some (x, y))
                            end
                        end
                    | _ => Ret None
                    end) as Hunfold.
  { intros rest. unfold points_coords.
    by destruct c0. }
  split; [| split].
  - rewrite Hunfold, split_field, split_field by done.
    by destruct (float_of_string c0), (float_of_string c1).
  - rewrite !Hunfold, !split_field, split_single by done. done.
  - unfold points_coords. destruct c0 as [| x c0]; [done |].
    by rewrite split_single.
Qed.

(** ** The output tree of a run *)

(** Every way a run can end, with the files it leaves. *)
Lemma run_inv (w : world coord image) (st : pipeline coord) (vp pn sc : string)
    (fs : gmap string (file image)) :
  (status (run w st vp pn sc fs) ≠ Ret true ∧ files (run w st vp pn sc fs) = fs)
  ∨ ∃ (st3 : pipeline coord) (ok : bool) (ex : extraction)
      (fs1 : gmap string (file image)),
      final_state (run w st vp pn sc fs) = st3
      ∧ extract_frames path_stem st3 vp (w_video w) (w_imwrite w) fs = (ok, ex, fs1)
      ∧ video_file (video_info st3) = Some vp
      ∧ let fs2 := <[csv_path (path_stem vp) sc :=
                       FText (csv_text float_repr
                                (scorer_row st3 sc :: bodyparts_row st3
                                   :: coords_row st3
                                   :: data_rows st3 (path_stem vp)))]> fs1 in
        let fs3 := <[config_path :=
                       FText (config_text st3 pn sc (w_today w) (w_project_path w)
                                          (path_name vp))]> fs2 in
        let fs4 := <["videos/" +:+ path_name vp := FVideoCopy vp]> fs3 in
        (status (run w st vp pn sc fs) ≠ Ret true
         ∧ files (run w st vp pn sc fs) = fs1)
        ∨ (ok = true
           ∧ valid_frames st3 ≠ []
           ∧ ((status (run w st vp pn sc fs) ≠ Ret true
               ∧ files (run w st vp pn sc fs) = fs2)
              ∨ (status (run w st vp pn sc fs) ≠ Ret true
                 ∧ files (run w st vp pn sc fs) = fs3)
              ∨ (status (run w st vp pn sc fs) = Raise OSError
                 ∧ files (run w st vp pn sc fs) = fs4)
              ∨ (status (run w st vp pn sc fs) = Ret true
                 ∧ files (run w st vp pn sc fs)
                   = <[summary_path := FSummary]> fs4))).
Proof.
  unfold run_pipeline.
  destruct (parse st (w_xml w)) as [[[] st1] | e]; simpl; [| by left..].
  destruct (get_video_info st1 vp (w_video w)) as [[] st2] eqn:Hinfo; simpl;
    [| by left].
  destruct (select st2 (w_inputs w)) as [[st3 rest] | e] eqn:Hsel; simpl;
    [| by left].
  apply (get_video_info_true (image := image)) in Hinfo as [Hvf Hfps].
  apply (select_keeps int_of_string strip) in Hsel as (_ & _ & Hvi).
  rewrite <- Hvi in Hvf, Hfps.
  destruct (extract_frames path_stem st3 vp (w_video w) (w_imwrite w) fs)
    as [[[] ex] fs1] eqn:Hex; simpl.
  2: { right. exists st3, false, ex, fs1. repeat (split; [done |]). by left. }
  unfold create_deeplabcut_csv, create_deeplabcut_config, copy_video_to_project,
    create_dataset_summary.
  rewrite Hvf. destruct Hfps as [rate Hfps]. rewrite Hfps.
  destruct (valid_frames st3) eqn:Hframes; simpl.
  { right. exists st3, true, ex, fs1. repeat (split; [done |]). by left. }
  destruct (w_csv_writable w); simpl.
  2: { right. exists st3, true, ex, fs1. repeat (split; [done |]). by left. }
  destruct (w_config_writable w); simpl.
  2: { right. exists st3, true, ex, fs1. repeat (split; [done |]). right.
       split; [done |]. split; [by rewrite Hframes |]. by left. }
  destruct (w_copy_ok w); simpl.
  2: { right. exists st3, true, ex, fs1. repeat (split; [done |]). right.
       split; [done |]. split; [by rewrite Hframes |]. right. by left. }
  destruct (w_summary_writable w); simpl.
  - right. exists st3, true, ex, fs1. repeat (split; [done |]). right.
    split; [done |]. split; [by rewrite Hframes |]. right. right. by right.
  - right. exists st3, true, ex, fs1. repeat (split; [done |]). right.
    split; [done |]. split; [by rewrite Hframes |]. right. right. by left.
Qed.

Lemma head_ne (c d : ascii) (s t : string) : c ≠ d → String c s ≠ String d t.
Proof. congruence. Qed.

Lemma image_path_head (vn name : string) :
  ∃ tail, frames_dir vn +:+ name = String "l" tail.
Proof. unfold frames_dir. eexists. reflexivity. Qed.

Lemma video_path_head (name : string) : ∃ tail, "videos/" +:+ name = String "v" tail.
Proof. eexists. reflexivity. Qed.

Lemma csv_path_in_frames_dir (vn sc : string) :
  csv_path vn sc = frames_dir vn +:+ ("CollectedData_" +:+ sc +:+ ".csv").
Proof. reflexivity. Qed.

Lemma summary_not_an_image (vn name : string) : summary_path ≠ frames_dir vn +:+ name.
Proof. destruct (image_path_head vn name) as [t ->]. by apply head_ne. Qed.

Lemma summary_not_a_video (name : string) : summary_path ≠ "videos/" +:+ name.
Proof. destruct (video_path_head name) as [t ->]. by apply head_ne. Qed.

(** X7: a run never removes a file: whatever was in the output directory
    before is still there afterwards, however the run ends. *)
Theorem run_never_deletes (w : world coord image) (st : pipeline coord)
    (vp pn sc : string) (fs : gmap string (file image)) :
  dom fs ⊆ dom (files (run w st vp pn sc fs)).
Proof.
  destruct (run_inv w st vp pn sc fs)
    as [[_ ->] | (st3 & ok & ex & fs1 & _ & Hex & _ & Hcases)]; [done |].
  pose proof (extract_frames_dom path_stem st3 vp (w_video w) (w_imwrite w) fs) as Himg.
  rewrite Hex in Himg. simpl in Himg, Hcases.
  destruct Hcases as [[_ ->] | (_ & _ & [[_ ->] | [[_ ->] | [[_ ->] | [_ ->]]]])];
    rewrite ?dom_insert; set_solver.
Qed.

(** X8: a run writes only below [labeled-data/<video name>/], to
    [config.yaml], to [videos/<video file name>] and to
    [dataset_summary.txt]; every other path of the output directory keeps
    its content. *)
Theorem run_writes_only_its_paths (w : world coord image) (st : pipeline coord)
    (vp pn sc p : string) (fs : gmap string (file image)) :
  (∀ name, p ≠ frames_dir (path_stem vp) +:+ name) →
  p ≠ config_path →
  p ≠ "videos/" +:+ path_name vp →
  p ≠ summary_path →
  files (run w st vp pn sc fs) !! p = fs !! p.
Proof.
  intros Himg Hcfg Hvid Hsum.
  assert (p ≠ csv_path (path_stem vp) sc) as Hcsv.
  { rewrite csv_path_in_frames_dir. apply Himg. }
  destruct (run_inv w st vp pn sc fs)
    as [[_ ->] | (st3 & ok & ex & fs1 & _ & Hex & _ & Hcases)]; [done |].
  pose proof (extract_frames_other path_stem st3 vp p (w_video w) (w_imwrite w) fs Himg)
    as Hother.
  rewrite Hex in Hother. simpl in Hother, Hcases.
  destruct Hcases as [[_ ->] | (_ & _ & [[_ ->] | [[_ ->] | [[_ ->] | [_ ->]]]])];
    repeat (rewrite lookup_insert_ne by done); exact Hother.
Qed.

(** X9: in an output directory without a summary, the complete summary
    file is there after a run exactly when the run returned [True]. *)
Theorem summary_marks_success (w : world coord image) (st : pipeline coord)
    (vp pn sc : string) (fs : gmap string (file image)) :
  fs !! summary_path = None →
  files (run w st vp pn sc fs) !! summary_path = Some FSummary
  ↔ status (run w st vp pn sc fs) = Ret true.
Proof.
  intros Hfresh.
  assert (summary_path ≠ csv_path (path_stem vp) sc) as Hcsv.
  { rewrite csv_path_in_frames_dir. apply summary_not_an_image. }
  destruct (run_inv w st vp pn sc fs)
    as [[Hs ->] | (st3 & ok & ex & fs1 & _ & Hex & _ & Hcases)].
  { rewrite Hfresh. split; [done | by intros ?]. }
  pose proof (extract_frames_other path_stem st3 vp summary_path (w_video w)
                (w_imwrite w) fs (λ name, summary_not_an_image (path_stem vp) name))
    as Himg.
  rewrite Hex, Hfresh in Himg. simpl in Himg, Hcases.
  destruct Hcases as [[Hs ->] | (_ & _ & [[Hs ->] | [[Hs ->] | [[Hs ->] | [Hs ->]]]])].
  - rewrite Himg. split; [done | by intros ?].
  - rewrite lookup_insert_ne by done. rewrite Himg. split; [done | by intros ?].
  - rewrite !lookup_insert_ne by done. rewrite Himg. split; [done | by intros ?].
  - rewrite lookup_insert_ne by (intros E; symmetry in E; by apply summary_not_a_video in E).
    rewrite !lookup_insert_ne by done. rewrite Himg, Hs. split; done.
  - rewrite lookup_insert_eq. by rewrite Hs.
Qed.

(** ** Images on disk *)

Lemma frame_filename_head (i : Z) : ∃ tail, frame_filename i = String "f" tail.
Proof. unfold frame_filename. eexists. reflexivity. Qed.

(** The stages after extraction leave the image files alone. *)
Lemma later_stages_keep_images (vp sc : string) (i : Z) (f2 f3 f4 f5 : file image)
    (fs1 : gmap string (file image)) :
  (<[summary_path := f5]>
     (<["videos/" +:+ path_name vp := f4]>
        (<[config_path := f3]> (<[csv_path (path_stem vp) sc := f2]> fs1))))
    !! (frames_dir (path_stem vp) +:+ frame_filename i)
  = fs1 !! (frames_dir (path_stem vp) +:+ frame_filename i).
Proof.
  destruct (image_path_head (path_stem vp) (frame_filename i)) as [t Ht].
  rewrite lookup_insert_ne by (rewrite Ht; by apply head_ne).
  rewrite lookup_insert_ne
    by (destruct (video_path_head (path_name vp)) as [t' ->]; rewrite Ht;
        by apply head_ne).
  rewrite lookup_insert_ne by (rewrite Ht; by apply head_ne).
  rewrite lookup_insert_ne; [done |].
  rewrite csv_path_in_frames_dir. intros Heq.
  apply (inj (String.app (frames_dir (path_stem vp)))) in Heq.
  destruct (frame_filename_head i) as [t' Ht'].
  rewrite Ht' in Heq. discriminate.
Qed.

(** After a successful run a decodable frame of the window is on disk
    under its name when its write returned [True], and its path is as it
    was before the run when its write returned [False]. *)
Lemma run_success_images (w : world coord image) (st : pipeline coord)
    (vp pn sc : string) (fs : gmap string (file image)) :
  status (run w st vp pn sc fs) = Ret true →
  ∃ cap : capture coord image,
    w_video w = Ret cap
    ∧ ∀ (i : nat) (img : image),
        cap_stream cap !! i = Some img →
        (frame_range (final_state (run w st vp pn sc fs))).1 ≤ Z.of_nat i
          ≤ (frame_range (final_state (run w st vp pn sc fs))).2 →
        (w_imwrite w (frames_dir (path_stem vp) +:+ frame_filename (Z.of_nat i)) img
         = ImwriteTrue →
         files (run w st vp pn sc fs)
           !! (frames_dir (path_stem vp) +:+ frame_filename (Z.of_nat i))
         = Some (FImage img))
        ∧ (w_imwrite w (frames_dir (path_stem vp) +:+ frame_filename (Z.of_nat i)) img
           = ImwriteFalse →
           files (run w st vp pn sc fs)
             !! (frames_dir (path_stem vp) +:+ frame_filename (Z.of_nat i))
           = fs !! (frames_dir (path_stem vp) +:+ frame_filename (Z.of_nat i))).
Proof.
  intros Hok.
  destruct (run_inv w st vp pn sc fs)
    as [[Hs _] | (st3 & ok & ex & fs1 & -> & Hex & _ & Hcases)]; [done |].
  simpl in Hcases.
  destruct Hcases as [[Hs _] | (-> & _ & [[Hs _] | [[Hs _] | [[Hs _] | [_ Hfiles]]]])];
    try done; try congruence.
  unfold extract_frames in Hex.
  destruct (w_video w) as [cap | e]; [| done]. exists cap. split; [done |].
  destruct (cap_opened cap); [| done]. simpl in Hex.
  assert ((extract_loop (w_imwrite w) (frames_dir (path_stem vp))
             (frame_range st3).1 (frame_range st3).2 (cap_stream cap) 0
             (Extraction 0 0) fs).1.1 = true) as Hran by (by rewrite Hex).
  assert (fs1 = (extract_loop (w_imwrite w) (frames_dir (path_stem vp))
                   (frame_range st3).1 (frame_range st3).2 (cap_stream cap) 0
                   (Extraction 0 0) fs).2) as -> by (by rewrite Hex).
  intros i img Hi Hwin. rewrite Hfiles, later_stages_keep_images.
  split; intros Hwrite.
  - pose proof (extract_loop_landed _ _ _ _ _ 0 (Extraction 0 0) fs i img Hran Hi) as Hl.
    rewrite Z.add_0_l in Hl. by apply Hl.
  - apply extract_loop_other. intros j img' Hj _ Hwrite' Heq.
    apply frame_path_inj in Heq. rewrite Z.add_0_l in *.
    apply Nat2Z.inj in Heq as ->. congruence.
Qed.

(** X10: after a run that returned [True] the output tree holds the
    table, the descriptor, the copy of the video and the complete summary;
    for every frame of the window that decodes and whose write returned
    [True] it holds the image file
    [labeled-data/<video name>/frame_<i>.png] with that frame in it; for a
    frame whose write returned [False] the path is as it was before the
    run, and the run has returned [True] all the same. *)
Theorem successful_run_leaves_project (w : world coord image) (st : pipeline coord)
    (vp pn sc : string) (fs : gmap string (file image)) :
  status (run w st vp pn sc fs) = Ret true →
  is_Some (files (run w st vp pn sc fs) !! csv_path (path_stem vp) sc)
  ∧ is_Some (files (run w st vp pn sc fs) !! config_path)
  ∧ files (run w st vp pn sc fs) !! ("videos/" +:+ path_name vp)
    = Some (FVideoCopy vp)
  ∧ files (run w st vp pn sc fs) !! summary_path = Some FSummary
  ∧ ∃ cap : capture coord image,
      w_video w = Ret cap
      ∧ ∀ (i : nat) (img : image),
          cap_stream cap !! i = Some img →
          (frame_range (final_state (run w st vp pn sc fs))).1 ≤ Z.of_nat i
            ≤ (frame_range (final_state (run w st vp pn sc fs))).2 →
          (w_imwrite w (frames_dir (path_stem vp) +:+ frame_filename (Z.of_nat i)) img
           = ImwriteTrue →
           files (run w st vp pn sc fs)
             !! (frames_dir (path_stem vp) +:+ frame_filename (Z.of_nat i))
           = Some (FImage img))
          ∧ (w_imwrite w (frames_dir (path_stem vp) +:+ frame_filename (Z.of_nat i)) img
             = ImwriteFalse →
             files (run w st vp pn sc fs)
               !! (frames_dir (path_stem vp) +:+ frame_filename (Z.of_nat i))
             = fs !! (frames_dir (path_stem vp) +:+ frame_filename (Z.of_nat i))).
Proof.
  intros Hok. pose proof (run_success_images w st vp pn sc fs Hok) as Himages.
  destruct (run_inv w st vp pn sc fs)
    as [[Hs _] | (st3 & ok & ex & fs1 & _ & _ & _ & Hcases)]; [done |].
  simpl in Hcases.
  destruct Hcases as [[Hs _] | (_ & _ & [[Hs _] | [[Hs _] | [[Hs _] | [_ Hfiles]]]])];
    try done; try congruence.
  rewrite Hfiles.
  destruct (csv_path_head (path_stem vp) sc) as [t Ht].
  destruct (video_path_head (path_name vp)) as [t' Ht'].
  split; [| split; [| split; [| split]]].
  - rewrite lookup_insert_ne by (rewrite Ht; by apply head_ne).
    rewrite lookup_insert_ne by (rewrite Ht, Ht'; by apply head_ne).
    rewrite lookup_insert_ne by (rewrite Ht; by apply head_ne).
    rewrite lookup_insert_eq. eauto.
  - rewrite lookup_insert_ne by done.
    rewrite lookup_insert_ne by (rewrite Ht'; by apply head_ne).
    rewrite lookup_insert_eq. eauto.
  - rewrite lookup_insert_ne by (rewrite Ht'; by apply head_ne).
    by rewrite lookup_insert_eq.
  - by rewrite lookup_insert_eq.
  - rewrite <- Hfiles. exact Himages.
Qed.

Lemma select_start_nonneg (inputs : list string) :
  ∀ (st st' : pipeline coord) (rest : list string),
    select st inputs = Ret (st', rest) → 0 ≤ (frame_range st').1.
Proof.
  induction inputs as [| choice inputs IH]; intros st st' rest; simpl; [done |].
  repeat case_decide.
  - destruct (total_frames (video_info st)); [| done]. by intros [= <- _].
  - destruct (total_frames (video_info st)) as [total |]; [| done].
    destruct (range_loop int_of_string (total - 1) inputs) as [[[a b] rest'] |] eqn:Hloop;
      [| done].
    simpl. intros [= <- _]. simpl.
    pose proof (range_loop_valid int_of_string _ _ _ _ _ Hloop). lia.
  - apply IH.
Qed.

(** X11: after a run that returned [True], if decoding reaches every
    annotated frame of the window and the write of each of these frames
    returned [True], every data row of the table names an image file that
    is on disk in the directory of the table. *)
Theorem successful_run_rows_on_disk (w : world coord image) (st : pipeline coord)
    (cap : capture coord image) (vp pn sc : string) (fs : gmap string (file image)) :
  status (run w st vp pn sc fs) = Ret true →
  w_video w = Ret cap →
  (∀ f, f ∈ valid_frames (final_state (run w st vp pn sc fs)) →
        ∃ img, cap_stream cap !! Z.to_nat f = Some img
               ∧ w_imwrite w (frames_dir (path_stem vp) +:+ frame_filename f) img
                 = ImwriteTrue) →
  ∀ row, row ∈ data_rows (final_state (run w st vp pn sc fs)) (path_stem vp) →
    ∃ name img,
      row_image row = Some name
      ∧ files (run w st vp pn sc fs) !! (frames_dir (path_stem vp) +:+ name)
        = Some (FImage img).
Proof.
  intros Hok Hcap Hreach row Hrow.
  destruct (run_success_images w st vp pn sc fs Hok) as (cap' & Hcap' & Himages).
  rewrite Hcap in Hcap'. injection Hcap' as <-.
  destruct (run_success float_of_string midpoint float_repr int_of_string strip
              path_stem path_name w st vp pn sc fs Hok)
    as (st1 & st2 & rest & _ & _ & Hsel & _).
  apply select_start_nonneg in Hsel.
  unfold data_rows in Hrow. apply list_elem_of_In, in_map_iff in Hrow as (f & <- & Hf).
  apply list_elem_of_In in Hf. destruct (Hreach f Hf) as (img & Himg & Hwrite).
  apply (proj1 (valid_frames_spec _)) in Hf as [Hwin _].
  exists (frame_filename f), img. split; [done |].
  specialize (Himages (Z.to_nat f) img Himg).
  rewrite Z2Nat.id in Himages by lia. by apply Himages.
Qed.

(** ** Counting rows *)

Lemma keys_permutation (m : gmap Z (gmap string (coord * coord))) :
  (map_to_list m).*1 ≡ₚ merge_sort Z.le (elements (dom m)).
Proof.
  apply NoDup_Permutation.
  - apply NoDup_fst_map_to_list.
  - rewrite merge_sort_Permutation. apply NoDup_elements.
  - intros k. rewrite merge_sort_Permutation, elem_of_elements, elem_of_dom.
    rewrite list_elem_of_fmap. split.
    + intros ([k' v] & -> & Hin). apply elem_of_map_to_list in Hin. simpl. eauto.
    + intros [v Hv]. exists (k, v). split; [done |]. by apply elem_of_map_to_list.
Qed.

(** X12: the number of data rows of the table is the "Valid Annotation
    Frames" figure of the summary, and it never exceeds the "total
    selected frames" figure [end - start + 1] of a window with
    [start <= end]. *)
Theorem row_count_figures (st : pipeline coord) (video_name : string) :
  length (data_rows st video_name) = valid_annotation_frames st
  ∧ ((frame_range st).1 ≤ (frame_range st).2 →
     Z.of_nat (length (data_rows st video_name)) ≤ total_selected_frames st)
  ∧ ((frame_range st).2 < (frame_range st).1 → data_rows st video_name = []).
Proof.
  unfold data_rows, valid_annotation_frames, total_selected_frames.
  rewrite length_map.
  destruct (valid_frames_spec st) as (Hmem & Hnodup & _).
  split; [| split].
  - unfold valid_frames. by rewrite (keys_permutation (annotations st)).
  - intros Hwin.
    assert (valid_frames st
              ⊆+ seqZ (frame_range st).1
                      ((frame_range st).2 - (frame_range st).1 + 1)) as Hsub.
    { apply NoDup_submseteq; [done |]. intros f Hf.
      apply Hmem in Hf as [Hf _]. apply elem_of_seqZ. lia. }
    apply submseteq_length in Hsub. rewrite length_seqZ in Hsub. lia.
  - intros Hempty. destruct (valid_frames st) as [| f l]; [done |].
    destruct (proj1 (Hmem f)) as [Hf _]; [left | lia].
Qed.

(** ** The GUI and the command line *)

(** X13: with frame selection "full", the GUI conversion does what the
    command-line run does when 1 is typed at the prompt: the same state
    and the same files; the same status too, except that an exception of
    the command-line run is a failed conversion in the GUI. *)
Theorem gui_full_is_cli_choice_1 (w : world coord image) (gi : gui_inputs)
    (choice : string) (rest : list string) (fs : gmap string (file image)) :
  gi_selection gi = Full →
  w_inputs w = choice :: rest →
  strip choice = "1" →
  final_state (gui_run w gi fs)
  = final_state (run w init (gi_video_file gi) (gi_project_name gi) (gi_scorer gi) fs)
  ∧ files (gui_run w gi fs)
    = files (run w init (gi_video_file gi) (gi_project_name gi) (gi_scorer gi) fs)
  ∧ status (gui_run w gi fs)
    = match status (run w init (gi_video_file gi) (gi_project_name gi)
                        (gi_scorer gi) fs) with
      | Raise _ => Ret false
      | Ret b => Ret b
      end.
Proof.
  intros Hfull Hinputs Hchoice. unfold run_conversion, run_pipeline.
  destruct (parse init (w_xml w)) as [[[] st1] | e]; simpl; [| done..].
  destruct (get_video_info st1 (gi_video_file gi) (w_video w)) as [[] st2]; simpl;
    [| done].
  unfold gui_set_range. rewrite Hfull, Hinputs. simpl.
  rewrite decide_True by done.
  destruct (total_frames (video_info st2)) as [total |]; simpl; [| done].
  destruct (extract_frames path_stem _ _ (w_video w) (w_imwrite w) fs)
    as [[[] ex] fs1]; simpl; [| done].
  destruct (csv _ _ _ _) as [[[] fs2] | e]; simpl; [| done..].
  destruct (config _ _ _ _ _ _ fs2) as [[[] fs3] | e]; simpl; [| done..].
  destruct (copy_video_to_project path_name _ _ fs3) as [[] fs4]; simpl; [| done].
  by destruct (create_dataset_summary _ _ fs4) as [[[] | e] fs5].
Qed.

(** ** Probed and exported frame counts *)

(** X14: the frame count of the export's [meta] block is only a
    placeholder: once the video is probed the count of the video replaces
    it, the exported start and stop frames stay, and the window of "all
    frames" is computed from the probed count. *)
Theorem probed_count_takes_precedence (st st1 : pipeline coord) (doc : document coord)
    (j : job_meta) (cap : capture coord image) (vp choice : string)
    (rest : list string) :
  parse st (Parsed doc) = Ret (true, st1) →
  meta_job doc = Some j →
  cap_opened cap = true →
  strip choice = "1" →
  total_frames (video_info st1) = Some (default 0 (size j))
  ∧ ∃ st2 st3 : pipeline coord,
      get_video_info st1 vp (Ret cap) = (true, st2)
      ∧ total_frames (video_info st2) = Some (cap_frame_count cap)
      ∧ vi_start_frame (video_info st2) = Some (default 0 (start_frame j))
      ∧ vi_stop_frame (video_info st2) = Some (default 0 (stop_frame j))
      ∧ select st2 (choice :: rest) = Ret (st3, rest)
      ∧ frame_range st3 = (0, cap_frame_count cap - 1).
Proof.
  intros Hparse Hmeta Hopen Hchoice. unfold parse_cvat_xml in Hparse.
  rewrite Hmeta in Hparse.
  destruct (ofold _ _ (tracks doc)) as [acc | e]; [| done].
  simpl in Hparse. injection Hparse as <-. simpl. split; [done |].
  unfold get_video_info. rewrite Hopen. simpl.
  eexists _, _. split; [reflexivity |]. simpl.
  rewrite decide_True by done. done.
Qed.

(** ** The command-line entry points *)

Local Abbreviation cli_main := (main (image := image) float_of_string midpoint
                                  float_repr int_of_string strip path_stem path_name).


End StageProperties.

(** X16: the converter script ends with status 0 exactly when it was given
    two arguments, the descriptor exists, [deeplabcut] could be imported
    and one of its three attempts went through; unlike
    [generate_h5_file], which returns [True] in every case, it reports a
    missing [deeplabcut] as a failure. *)
Theorem h5_main_exit_status (argv : list string) (config_exists : string → bool)
    (d : dlc) :
  (h5_main argv config_exists d = 0
   ↔ ∃ script config_path scorer,
       argv = [script; config_path; scorer]
       ∧ config_exists config_path = true
       ∧ dlc_import d = ImportOk
       ∧ (dlc_patched_ok d = true ∨ dlc_env_ok d = true ∨ dlc_plain_ok d = true))
  ∧ (h5_main argv config_exists d = 0 ∨ h5_main argv config_exists d = 1)
  ∧ (dlc_import d = ImportMissing →
     (convert_csv_to_h5_auto d).1 = false
     ∧ ∀ c, import_deeplabcut c = ImportMissing → (generate_h5_file c).1 = true).
Proof.
  split; [| split].
  - unfold h5_main, convert_csv_to_h5_auto.
    destruct argv as [| a0 [| a1 [| a2 [| a3 argv]]]]; simpl;
      try (split; [done | by intros (? & ? & ? & ? & _)]).
    destruct (config_exists a1) eqn:Hexists; simpl.
    + destruct d as [[] [] [] []]; simpl; split; try done;
        try (intros _; exists a0, a1, a2; by eauto 8);
        intros (? & ? & ? & [= <- <- <-] & _ & ? & [? | [? | ?]]); done.
    + split; [done |]. intros (? & ? & ? & [= <- <- <-] & ? & _). congruence.
  - unfold h5_main.
    destruct argv as [| a0 [| a1 [| a2 [| a3 argv]]]]; simpl; auto.
    destruct (config_exists a1); simpl; auto.
    destruct (convert_csv_to_h5_auto d).1; auto.
  - intros Himport. unfold convert_csv_to_h5_auto, generate_h5_file.
    rewrite Himport. split; [done |]. by intros c ->.
Qed.


(** X17: [generate_h5_file] logs the success line exactly when
    [deeplabcut] imports and one of these goes through: the call under the
    patched [input]; the helper script, when it exists, with return code 0;
    the inline subprocess with return code 0, which is not tried when the
    helper script exists and raises (a timeout, say); the call with the
    environment variables set. *)
Theorem h5_generated_iff (c : converter) :
  H5Generated ∈ (generate_h5_file c).2
  ↔ import_deeplabcut c = ImportOk
    ∧ (patched_call_ok c = true
       ∨ (script_exists c = true ∧ script_run c = Exit 0)
       ∨ (inline_run c = Exit 0
          ∧ ¬ (script_exists c = true ∧ script_run c = ProcRaises))
       ∨ batch_call_ok c = true).
Proof.
  assert (∀ log, H5Generated ∉ log →
            (H5Generated ∈ (h5_batch c log).2 ↔ batch_call_ok c = true)) as Hbatch.
  { intros log Hlog. unfold h5_batch. destruct (batch_call_ok c); simpl.
    - split; [done |]. intros _. apply elem_of_app. right. left.
    - split; [| done]. intros [? | Hin]%elem_of_app; [done |].
      apply list_elem_of_singleton in Hin. done. }
  assert (∀ log, H5Generated ∉ log →
            (H5Generated ∈ (h5_inline c log).2
             ↔ inline_run c = Exit 0 ∨ batch_call_ok c = true)) as Hinline.
  { intros log Hlog. unfold h5_inline.
    destruct (inline_run c) as [[| p | p] |]; rewrite ?Hbatch by done;
      try (split; [by right | by intros [? | ?]]).
    simpl. split; [by left |]. intros _. apply elem_of_app. right. left. }
  assert (H5Generated ∉ ([] : list h5_message)) as Hnil by apply not_elem_of_nil.
  assert (H5Generated ∉ [H5ConverterOutput]) as Hout.
  { intros Hin. apply list_elem_of_singleton in Hin. done. }
  unfold generate_h5_file. destruct (import_deeplabcut c); simpl.
  - destruct (patched_call_ok c); simpl.
    { split; [by auto |]. intros _. left. }
    unfold h5_subprocess. destruct (script_exists c); simpl.
    + destruct (script_run c) as [[| p | p] |]; simpl;
        rewrite ?Hinline, ?Hbatch by done.
      * split; [by auto |]. intros _. left.
      * split.
        -- intros [? | ?]; (split; [done |]); [right; right; left | by auto].
           split; [done | by intros [_ ?]].
        -- intros [_ [? | [[_ ?] | [[? _] | ?]]]]; try done; by auto.
      * split.
        -- intros [? | ?]; (split; [done |]); [right; right; left | by auto].
           split; [done | by intros [_ ?]].
        -- intros [_ [? | [[_ ?] | [[? _] | ?]]]]; try done; by auto.
      * split; [by auto |].
        intros [_ [? | [[_ ?] | [[_ Hn] | ?]]]]; try done.
        by destruct Hn.
    + rewrite Hinline by done. split.
      * intros [? | ?]; (split; [done |]); [right; right; left | by auto].
        split; [done | by intros [? _]].
      * intros [_ [? | [[? _] | [[? _] | ?]]]]; try done; by auto.
  - split; [| by intros [? _]]. intros Hin. apply list_elem_of_singleton in Hin. done.
  - split; [| by intros [? _]]. intros Hin. apply list_elem_of_singleton in Hin. done.
Qed.

(** X19: seen from the process it runs in, [generate_h5_file] returns
    and logs as before, leaves [builtins.input] bound to what it was bound
    to, touches no environment variable other than [DLC_BATCH_MODE] and
    [PYTHONIOENCODING], leaves the environment alone when the patched call
    goes through, and leaves both variables set whenever it ends with the
    warning about the interactive prompt. *)
Theorem h5_patch_never_leaks (c : converter) (ps : process_state) :
  ((generate_h5_file_in c ps).1.1, (generate_h5_file_in c ps).1.2)
  = generate_h5_file c
  ∧ builtins_input (generate_h5_file_in c ps).2 = builtins_input ps
  ∧ (∀ k, k ≠ "DLC_BATCH_MODE" → k ≠ "PYTHONIOENCODING" →
          environ (generate_h5_file_in c ps).2 !! k = environ ps !! k)
  ∧ (patched_call_ok c = true →
     environ (generate_h5_file_in c ps).2 = environ ps)
  ∧ (H5PromptWarning ∈ (generate_h5_file_in c ps).1.2 →
     environ (generate_h5_file_in c ps).2 !! "DLC_BATCH_MODE" = Some "1"
     ∧ environ (generate_h5_file_in c ps).2 !! "PYTHONIOENCODING" = Some "utf-8").
Proof.
  assert (∀ log p,
            ((h5_batch_in c log p).1.1, (h5_batch_in c log p).1.2) = h5_batch c log
            ∧ builtins_input (h5_batch_in c log p).2 = builtins_input p
            ∧ (∀ k, k ≠ "DLC_BATCH_MODE" → k ≠ "PYTHONIOENCODING" →
                    environ (h5_batch_in c log p).2 !! k = environ p !! k)
            ∧ environ (h5_batch_in c log p).2 !! "DLC_BATCH_MODE" = Some "1"
            ∧ environ (h5_batch_in c log p).2 !! "PYTHONIOENCODING" = Some "utf-8")
    as Hbatch.
  { intros log p. unfold h5_batch_in, h5_batch, set_env.
    destruct (batch_call_ok c); simpl.
    all: split; [done |]; split; [done |].
    all: split; [intros k H1 H2; by rewrite !lookup_insert_ne |].
    all: split; [by rewrite lookup_insert_ne, lookup_insert_eq |].
    all: apply lookup_insert_eq. }
  assert (∀ log p,
            H5PromptWarning ∉ log →
            ((h5_inline_in c log p).1.1, (h5_inline_in c log p).1.2) = h5_inline c log
            ∧ builtins_input (h5_inline_in c log p).2 = builtins_input p
            ∧ (∀ k, k ≠ "DLC_BATCH_MODE" → k ≠ "PYTHONIOENCODING" →
                    environ (h5_inline_in c log p).2 !! k = environ p !! k)
            ∧ (H5PromptWarning ∈ (h5_inline_in c log p).1.2 →
               environ (h5_inline_in c log p).2 !! "DLC_BATCH_MODE" = Some "1"
               ∧ environ (h5_inline_in c log p).2 !! "PYTHONIOENCODING"
                 = Some "utf-8"))
    as Hinline.
  { intros log p Hlog. unfold h5_inline_in, h5_inline.
    destruct (inline_run c) as [[| q | q] |];
      try (destruct (Hbatch log p) as (? & ? & ? & ? & ?); by eauto).
    simpl. split; [done |]. split; [done |]. split; [done |].
    intros [? | Hin]%elem_of_app; [done |].
    apply list_elem_of_singleton in Hin. done. }
  assert (H5PromptWarning ∉ ([] : list h5_message)) as Hnil by apply not_elem_of_nil.
  assert (H5PromptWarning ∉ [H5ConverterOutput]) as Hout.
  { intros Hin. apply list_elem_of_singleton in Hin. done. }
  assert (∀ m : h5_message, m ≠ H5PromptWarning → H5PromptWarning ∉ [m]) as Hone.
  { intros m Hm Hin. apply list_elem_of_singleton in Hin. done. }
  unfold generate_h5_file_in, generate_h5_file.
  destruct (import_deeplabcut c); simpl.
  - destruct (patched_call_ok c) eqn:Hpatched; simpl.
    { split; [done |]. split; [done |]. split; [done |]. split; [done |].
      intros Hin. by apply Hone in Hin. }
    unfold h5_subprocess_in, h5_subprocess.
    set (p := set_input (builtins_input ps) (set_input "auto_yes_input" ps)).
    assert (builtins_input p = builtins_input ps ∧ environ p = environ ps)
      as [Hinput Henv] by done.
    destruct (script_exists c); simpl.
    + destruct (script_run c) as [[| q | q] |]; simpl.
      * split; [done |]. split; [done |]. split; [done |].
        split; [done |]. intros Hin. by apply Hone in Hin.
      * destruct (Hinline [H5ConverterOutput] p Hout) as (? & ? & Hk & ?).
        split; [done |]. split; [congruence |].
        split; [intros k Hk1 Hk2; by rewrite Hk |]. split; [done | done].
      * destruct (Hinline [H5ConverterOutput] p Hout) as (? & ? & Hk & ?).
        split; [done |]. split; [congruence |].
        split; [intros k Hk1 Hk2; by rewrite Hk |]. split; [done | done].
      * destruct (Hbatch [] p) as (? & ? & Hk & ? & ?).
        split; [done |]. split; [congruence |].
        split; [intros k Hk1 Hk2; by rewrite Hk |]. split; [done | done].
    + destruct (Hinline [] p Hnil) as (? & ? & Hk & ?).
      split; [done |]. split; [congruence |].
      split; [intros k Hk1 Hk2; by rewrite Hk |]. split; [done | done].
  - split; [done |]. split; [done |]. split; [done |]. split; [done |].
    intros Hin. by apply Hone in Hin.
  - split; [done |]. split; [done |]. split; [done |]. split; [done |].
    intros Hin. by apply Hone in Hin.
Qed.

(** ** File names sort like frame numbers *)

Module FrameOrder.

Local Ltac Zify.zify_post_hook ::= Z.to_euclidean_division_equations.

Local Open Scope N_scope.

Lemma zfill_digits4 (n : N) : n < 10000 → Str.zfill 4 (pretty n) = digits4 n.
Proof.
  intros Hn. unfold pretty, pretty_N, digits4.
  case_decide as H0; [by subst |].
  assert (n < 10 ∨ 10 ≤ n < 100 ∨ 100 ≤ n < 1000 ∨ 1000 ≤ n) as Hcases by lia.
  destruct Hcases as [H | [H | [H | H]]].
  - rewrite pretty_N_go_step by lia.
    replace (n / 10) with 0 by lia. rewrite pretty_N_go_0.
    replace (n / 1000) with 0 by lia. replace (n / 100 mod 10) with 0 by lia.
    replace (n / 10 mod 10) with 0 by lia. reflexivity.
  - rewrite 2!pretty_N_go_step by lia.
    replace (n / 10 / 10) with 0 by lia. rewrite pretty_N_go_0.
    replace (n / 1000) with 0 by lia. replace (n / 100 mod 10) with 0 by lia.
    replace (n / 10 mod 10) with (n / 10 mod 10) by done. reflexivity.
  - rewrite 3!pretty_N_go_step by lia.
    replace (n / 10 / 10 / 10) with 0 by lia. rewrite pretty_N_go_0.
    replace (n / 1000) with 0 by lia.
    replace (n / 10 / 10 mod 10) with (n / 100 mod 10) by lia.
    reflexivity.
  - rewrite 4!pretty_N_go_step by lia.
    replace (n / 10 / 10 / 10 / 10) with 0 by lia.
    rewrite pretty_N_go_0.
    replace (n / 10 / 10 / 10 mod 10) with (n / 1000) by lia.
    replace (n / 10 / 10 mod 10) with (n / 100 mod 10) by lia.
    reflexivity.
Qed.

Lemma code_of_digit (d : N) : d < 10 → N_of_ascii (pretty_N_char d) = 48 + d.
Proof.
  intros Hd.
  assert (d = 0 ∨ d = 1 ∨ d = 2 ∨ d = 3 ∨ d = 4 ∨ d = 5 ∨ d = 6
          ∨ d = 7 ∨ d = 8 ∨ d = 9) as Hcases by lia.
  repeat (destruct Hcases as [-> | Hcases]; [reflexivity |]).
  by subst.
Qed.

Lemma compare_digit (x y : N) :
  x < 10 → y < 10 →
  Ascii.compare (pretty_N_char x) (pretty_N_char y) = (x ?= y).
Proof.
  intros Hx Hy. unfold Ascii.compare. rewrite !code_of_digit by done.
  destruct (N.compare_spec x y), (N.compare_spec (48 + x) (48 + y)); lia || done.
Qed.

Lemma compare_same (s : string) : (s ?= s)%string = Eq.
Proof.
  induction s as [| c s IH]; [done |].
  cbn [String.compare]. unfold Ascii.compare. by rewrite N.compare_refl.
Qed.

Lemma leb_digits4 (a b : N) (t : string) :
  a ≤ b → b < 10000 →
  String.leb (digits4 a +:+ t) (digits4 b +:+ t) = true.
Proof.
  intros Hab Hb.
  assert (∀ n, digits4 n +:+ t
               = String (pretty_N_char (n / 1000))
                   (String (pretty_N_char (n / 100 mod 10))
                      (String (pretty_N_char (n / 10 mod 10))
                         (String (pretty_N_char (n mod 10)) t)))) as Hcat
    by reflexivity.
  rewrite !Hcat. unfold String.leb. cbn [String.compare].
  rewrite !compare_digit by lia.
  destruct (N.compare_spec (a / 1000) (b / 1000)); [| done | lia].
  destruct (N.compare_spec (a / 100 mod 10) (b / 100 mod 10)); [| done | lia].
  destruct (N.compare_spec (a / 10 mod 10) (b / 10 mod 10)); [| done | lia].
  destruct (N.compare_spec (a mod 10) (b mod 10)); [| done | lia].
  by rewrite compare_same.
Qed.

Lemma leb_prefix (p x y : string) :
  String.leb (p +:+ x) (p +:+ y) = String.leb x y.
Proof.
  unfold String.leb. induction p as [| c p IH]; [done |].
  change (String c p +:+ ?s) with (String c (p +:+ s)).
  cbn [String.compare].
  replace (Ascii.compare c c) with Eq; [exact IH |].
  symmetry. unfold Ascii.compare. apply N.compare_refl.
Qed.

End FrameOrder.

(** X18: for frame numbers up to 9999 the file names are ordered, as
    strings, like the frame numbers: a listing of the image directory
    sorted by name is sorted by frame; from frame 10000 on this is lost,
    [frame_10000.png] sorts before [frame_9999.png]. *)
Theorem frame_names_sort_by_frame (a b : Z) :
  0 ≤ a → a < b → b ≤ 9999 →
  String.le (frame_filename a) (frame_filename b)
  ∧ frame_filename a ≠ frame_filename b
  ∧ ¬ String.le (frame_filename 9999) (frame_filename 10000).
Proof.
  intros Ha Hab Hb. split; [| split].
  - unfold String.le, frame_filename. rewrite FrameOrder.leb_prefix.
    unfold Str.format_04d.
    assert (∀ n, 0 ≤ n ≤ 9999 →
              match n with
              | Z.neg p => "-" +:+ Str.zfill 3 (pretty (N.pos p))
              | _ => Str.zfill 4 (pretty (Z.to_N n))
              end = digits4 (Z.to_N n)) as Hfmt.
    { intros n Hn. destruct n as [| p | p]; [| | lia];
        apply FrameOrder.zfill_digits4; lia. }
    rewrite !Hfmt by lia.
    rewrite FrameOrder.leb_digits4; [done | lia | lia].
  - intros Heq%frame_filename_inj. lia.
  - by vm_compute.
Qed.

(** * Concrete instances of the further properties *)

Lemma extraction_counts_write_calls_witness :
  extracted_count
    (extract_frames Sample.path_stem (set_selection (@init Q) Range (0, 2))
       "/videos/bee.mp4" (Ret (Sample.film 10 3))
       (Sample.imwrite_except "labeled-data/bee/frame_0001.png") ∅).1.2
  = 3%nat
  ∧ (extract_frames Sample.path_stem (set_selection (@init Q) Range (0, 2))
       "/videos/bee.mp4" (Ret (Sample.film 10 3))
       (Sample.imwrite_except "labeled-data/bee/frame_0001.png") ∅).2
      !! "labeled-data/bee/frame_0001.png"
    = None.
Proof.
  destruct (@extraction_counts_write_calls Q string Sample.path_stem
              (set_selection (@init Q) Range (0, 2)) (Sample.film 10 3)
              "/videos/bee.mp4"
              (Sample.imwrite_except "labeled-data/bee/frame_0001.png") ∅ 0 2)
    as (Hok & Hthen & _); [reflexivity | reflexivity | lia |].
  destruct Hthen as (_ & Hcount & _ & Hfiles).
  - apply Hok. intros i img _ _. unfold Sample.imwrite_except. by case_decide.
  - split; [exact Hcount |].
    exact (proj2 (Hfiles 1%nat "image 1" eq_refl ltac:(lia)) eq_refl).
Defined.

Lemma prompt_window_within_video_witness :
  ∃ total : Z,
    total_frames (video_info Sample.probed3) = Some total
    ∧ ((frame_selection (set_selection Sample.probed3 Range (1, 2)) = Full
        ∧ frame_range (set_selection Sample.probed3 Range (1, 2)) = (0, total - 1))
       ∨ (frame_selection (set_selection Sample.probed3 Range (1, 2)) = Range
          ∧ 0 ≤ (frame_range (set_selection Sample.probed3 Range (1, 2))).1
              ≤ (frame_range (set_selection Sample.probed3 Range (1, 2))).2
              ≤ total - 1)).
Proof.
  apply (@prompt_window_within_video Q Sample.int_of_string Sample.strip
           ["2"; "2"; "4"; "1"; "2"] Sample.probed3
           (set_selection Sample.probed3 Range (1, 2)) []).
  reflexivity.
Defined.

Lemma table_is_rectangular_witness :
  length (bodyparts_row Sample.hive_state) = 7%nat.
Proof.
  apply (@table_is_rectangular Q Sample.hive_state "manual" "v").
  right. left.
Defined.

Lemma table_columns_aligned_witness :
  data_row Sample.hive_state "v" 7 !! 5%nat = Some (CFloat (11 # 2)%Q)
  ∧ data_row Sample.hive_state "v" 7 !! 6%nat = Some (CFloat (13 # 2)%Q).
Proof.
  destruct (@table_columns_aligned Q Sample.hive_state "manual" "v" 1 "Worker" 7)
    as (_ & _ & _ & _ & _ & _ & Hcells); [reflexivity |].
  exact Hcells.
Defined.

Lemma vocabulary_covers_annotations_witness :
  ∃ st' : pipeline Q,
    Sample.parse init (Parsed Sample.hive_doc) = Ret (true, st')
    ∧ ∃ f, is_Some (keypoint (annotations st') f "Worker").
Proof.
  destruct (@vocabulary_covers_annotations Q Sample.float_of_string Sample.midpoint
              init Sample.hive_doc)
    as (st' & Hparse & _ & Hused); [reflexivity |].
  exists st'. split; [exact Hparse |].
  apply Hused. vm_compute in Hparse. injection Hparse as <-.
  apply list_elem_of_In. vm_compute. tauto.
Defined.

Lemma points_first_two_components_witness :
  points_coords Sample.float_of_string (Some "12.0,8.0,3.0,oops")
  = Ret (Some (12%Q, 8%Q)).
Proof.
  exact (proj1 (@points_first_two_components Q Sample.float_of_string
                  "12.0" "8.0" "3.0,oops" eq_refl eq_refl)).
Defined.

Lemma run_writes_only_its_paths_witness :
  files (Sample.run (Sample.bee_world 10 10 ["1"]) init "/videos/bee.mp4"
           "BeePoseEstimation" "manual" {["notes.txt" := FText "keep"]})
    !! "notes.txt"
  = Some (FText "keep").
Proof.
  rewrite (@run_writes_only_its_paths Q string Sample.float_of_string Sample.midpoint
             Sample.float_repr Sample.int_of_string Sample.strip
             Sample.path_stem Sample.path_name).
  - reflexivity.
  - intros name. discriminate.
  - discriminate.
  - discriminate.
  - discriminate.
Defined.

Lemma summary_marks_success_witness :
  files (Sample.run (Sample.bee_world 10 10 ["1"]) init "/videos/bee.mp4"
           "BeePoseEstimation" "manual" ∅) !! summary_path = Some FSummary
  ↔ status (Sample.run (Sample.bee_world 10 10 ["1"]) init "/videos/bee.mp4"
              "BeePoseEstimation" "manual" ∅) = Ret true.
Proof.
  apply (@summary_marks_success Q string Sample.float_of_string Sample.midpoint
           Sample.float_repr Sample.int_of_string Sample.strip
           Sample.path_stem Sample.path_name).
  reflexivity.
Defined.

Lemma successful_run_leaves_project_witness :
  files (Sample.run (Sample.bee_world 10 10 ["1"]) init "/videos/bee.mp4"
           "BeePoseEstimation" "manual" ∅) !! "videos/bee.mp4"
  = Some (FVideoCopy "/videos/bee.mp4")
  ∧ files (Sample.run (Sample.bee_world 10 10 ["1"]) init "/videos/bee.mp4"
             "BeePoseEstimation" "manual" ∅) !! summary_path
    = Some FSummary.
Proof.
  destruct (@successful_run_leaves_project Q string Sample.float_of_string
              Sample.midpoint Sample.float_repr Sample.int_of_string Sample.strip
              Sample.path_stem Sample.path_name
              (Sample.bee_world 10 10 ["1"]) init "/videos/bee.mp4"
              "BeePoseEstimation" "manual" ∅)
    as (_ & _ & Hvideo & Hsummary & _); [vm_compute; reflexivity |].
  split; [exact Hvideo | exact Hsummary].
Defined.

Lemma successful_run_rows_on_disk_witness :
  ∃ name img,
    row_image [CStr "labeled-data"; CStr "bee"; CStr "frame_0005.png";
               CFloat 12%Q; CFloat 8%Q] = Some name
    ∧ files (Sample.run (Sample.bee_world 10 10 ["1"]) init "/videos/bee.mp4"
               "BeePoseEstimation" "manual" ∅)
        !! (frames_dir (Sample.path_stem "/videos/bee.mp4") +:+ name)
      = Some (FImage img).
Proof.
  apply (@successful_run_rows_on_disk Q string Sample.float_of_string
           Sample.midpoint Sample.float_repr Sample.int_of_string Sample.strip
           Sample.path_stem Sample.path_name
           (Sample.bee_world 10 10 ["1"]) init (Sample.film 10 10)).
  - vm_compute. reflexivity.
  - reflexivity.
  - intros f Hf. apply list_elem_of_In in Hf. vm_compute in Hf.
    destruct Hf as [<- | []]. exists "image 5". split; reflexivity.
  - apply list_elem_of_In. vm_compute. left. reflexivity.
Defined.

Lemma gui_full_is_cli_choice_1_witness :
  files (Sample.gui_run (Sample.bee_world 10 10 ["1"]) Sample.form_full ∅)
  = files (Sample.run (Sample.bee_world 10 10 ["1"]) init "/videos/bee.mp4"
             "BeePoseEstimation" "manual" ∅).
Proof.
  destruct (@gui_full_is_cli_choice_1 Q string Sample.float_of_string Sample.midpoint
              Sample.float_repr Sample.int_of_string Sample.strip
              Sample.path_stem Sample.path_name
              (Sample.bee_world 10 10 ["1"]) Sample.form_full "1" [] ∅)
    as (_ & Hfiles & _); [reflexivity | reflexivity | reflexivity |].
  exact Hfiles.
Defined.

Lemma probed_count_takes_precedence_witness :
  total_frames (video_info Sample.meta_state) = Some 100
  ∧ ∃ st2 st3 : pipeline Q,
      get_video_info Sample.meta_state "/videos/bee.mp4" (Ret (Sample.film 10 10))
      = (true, st2)
      ∧ total_frames (video_info st2) = Some 10
      ∧ vi_start_frame (video_info st2) = Some 0
      ∧ vi_stop_frame (video_info st2) = Some 99
      ∧ Sample.select st2 ["1"] = Ret (st3, [])
      ∧ frame_range st3 = (0, 9).
Proof.
  exact (@probed_count_takes_precedence Q string Sample.float_of_string
           Sample.midpoint Sample.int_of_string Sample.strip
           init Sample.meta_state Sample.meta_doc
           (JobMeta (Some 100) (Some 0) (Some 99)) (Sample.film 10 10)
           "/videos/bee.mp4" "1" [] eq_refl eq_refl eq_refl eq_refl).
Defined.

Lemma frame_names_sort_by_frame_witness :
  String.le (frame_filename 37) (frame_filename 120)
  ∧ frame_filename 37 ≠ frame_filename 120.
Proof.
  destruct (frame_names_sort_by_frame 37 120) as (Hle & Hne & _); [lia | lia | lia |].
  split; [exact Hle | exact Hne].
Defined.
